(** * TrustGraph pipeline: a shallow embedding of the core stages

    The development follows the five stages of the [trustgraph] package:
    text preprocessing ([preprocessor.py]), product matching
    ([product_matcher.py]), content analysis ([content_analyzer.py]),
    atom synthesis ([trust_atom_creator.py]) and multi-index storage
    ([storage.py]).

    Modelling conventions.
    - A Python [str] is a Rocq [string], one [ascii] per code point; the
      model covers the code points U+0000..U+00FF.  The character classes
      [\s], [\w] and [str.lower] are those of Python 3 on that range.
    - Python floats are idealised as exact rationals ([Q]); equalities
      between scores are stated with [==].
    - A dict with a fixed set of keys is a record; a key that may be absent
      is an [option] field and [d.get(k, default)] is [default] on [None].
      The product registry is an association list in insertion order, the
      order in which [dict.items()] iterates.
    - Files are explicit state: the unresolved-mention log and the three
      storage directories are passed in and returned.  A file is absent,
      unparseable, or holds the list written so far; opening and writing a
      file succeed, so the handlers of I/O errors are outside the model.
      Making a directory fails for the empty path only, which is what the
      directory part of a bare file name is.
    - The clock ([datetime.now()]) and the random suffix ([uuid.uuid4()])
      are inputs of the functions that read them. *)

From Stdlib Require Import String Ascii List Bool Arith ZArith QArith Qminmax Lia.
From Stdlib Require Import Sorted.
From stdpp Require Import gmap strings.
Import ListNotations.

Local Open Scope string_scope.
#[local] Arguments String.append !s1 s2 : simpl nomatch.

(** ** Python strings *)

Module PyStr.

Definition code (c : ascii) : nat := nat_of_ascii c.

Definition between (lo hi : nat) (c : ascii) : bool :=
  (lo <=? code c)%nat && (code c <=? hi)%nat.

(** [str.isspace] and the regular-expression class [\s]. *)
Definition is_space (c : ascii) : bool :=
  between 9 13 c || between 28 32 c
  || (code c =? 133)%nat || (code c =? 160)%nat.

(** The regular-expression class [\w]: alphanumerics and the underscore. *)
Definition is_word (c : ascii) : bool :=
  between 48 57 c || between 65 90 c || (code c =? 95)%nat
  || between 97 122 c || (code c =? 170)%nat || between 178 179 c
  || (code c =? 181)%nat || between 185 186 c || between 188 190 c
  || between 192 214 c || between 216 246 c || between 248 255 c.

Definition lower_char (c : ascii) : ascii :=
  if between 65 90 c || between 192 214 c || between 216 222 c
  then ascii_of_nat (code c + 32)
  else c.

#[global] Arguments is_space : simpl never.
#[global] Arguments is_word : simpl never.
#[global] Arguments lower_char : simpl never.

(** [s.lower()] *)
Fixpoint lower (s : string) : string :=
  match s with
  | EmptyString => EmptyString
  | String c s' => String (lower_char c) (lower s')
  end.

(** [p] is a prefix of [s]; on success the rest of [s] is returned. *)
Fixpoint strip_prefix (p s : string) : option string :=
  match p with
  | EmptyString => Some s
  | String a p' =>
      match s with
      | EmptyString => None
      | String b s' => if Ascii.eqb a b then strip_prefix p' s' else None
      end
  end.

Definition starts_with (p s : string) : bool :=
  match strip_prefix p s with Some _ => true | None => false end.

(** [sub in s] *)
Fixpoint contains (sub s : string) : bool :=
  starts_with sub s
  || match s with
     | EmptyString => false
     | String _ s' => contains sub s'
     end.

Definition is_empty (s : string) : bool :=
  match s with EmptyString => true | String _ _ => false end.

(** Truth value of a string: [bool(s)]. *)
Definition truthy (s : string) : bool := negb (is_empty s).

Fixpoint drop_while (p : ascii -> bool) (s : string) : string :=
  match s with
  | EmptyString => EmptyString
  | String c s' => if p c then drop_while p s' else s
  end.

(** [s.split()]: the maximal runs of non-whitespace characters. *)
Fixpoint split_from (cur : string) (s : string) : list string :=
  match s with
  | EmptyString => if is_empty cur then [] else [cur]
  | String c s' =>
      if is_space c
      then (if is_empty cur then split_from "" s' else cur :: split_from "" s')
      else split_from (cur ++ String c "") s'
  end.

Definition split (s : string) : list string := split_from "" s.

(** [s.rstrip()], [s.lstrip()] and [s.strip()] *)
Fixpoint rstrip (s : string) : string :=
  match s with
  | EmptyString => EmptyString
  | String c s' =>
      let r := rstrip s' in
      if is_space c && is_empty r then EmptyString else String c r
  end.

Definition lstrip (s : string) : string := drop_while is_space s.

Definition strip (s : string) : string := rstrip (lstrip s).

(** *** [re.sub]

    A pattern is given by its matcher: applied to the text from the current
    position on, it returns the text that follows the match, or [None] when
    the pattern does not match there.  [re.sub] scans from the left; at a
    match it emits the replacement and resumes after the match, otherwise
    it copies one character.  None of the patterns used below matches the
    empty string, so every step consumes input and [length s] steps are
    enough. *)

Definition matcher := string -> option string.

Fixpoint re_sub_steps (m : matcher) (repl : string) (steps : nat) (s : string)
  : string :=
  match steps with
  | O => s
  | S k =>
      match s with
      | EmptyString => EmptyString
      | String c s' =>
          match m s with
          | Some rest => repl ++ re_sub_steps m repl k rest
          | None => String c (re_sub_steps m repl k s')
          end
      end
  end.

Definition re_sub (m : matcher) (repl : string) (s : string) : string :=
  re_sub_steps m repl (String.length s) s.

(** [\S+] at the head of [s]: at least one non-whitespace character, as many
    as there are. *)
Definition nonspace_run : matcher := fun s =>
  match s with
  | EmptyString => None
  | String c s' =>
      if is_space c then None else Some (drop_while (fun x => negb (is_space x)) s')
  end.

(** [https?://\S+] *)
Definition url_at : matcher := fun s =>
  let tail r :=
    match strip_prefix "://" r with
    | Some u => nonspace_run u
    | None => None
    end in
  match strip_prefix "http" s with
  | None => None
  | Some r =>
      match strip_prefix "s" r with
      | Some r' =>
          match tail r' with
          | Some rest => Some rest
          | None => tail r
          end
      | None => tail r
      end
  end.

(** [[^\w\s\']] *)
Definition special_at : matcher := fun s =>
  match s with
  | EmptyString => None
  | String c s' =>
      if is_word c || is_space c || Ascii.eqb c "'" then None else Some s'
  end.

(** [\s+] *)
Definition spaces_at : matcher := fun s =>
  match s with
  | EmptyString => None
  | String c s' => if is_space c then Some (drop_while is_space s') else None
  end.

End PyStr.

(** ** preprocessor.py *)

Module Preprocessor.
Import PyStr.

(** [DataPreprocessor.clean_text] *)
Definition clean_text (text : string) : string :=
  if is_empty text then ""
  else
    let text := re_sub url_at "" text in
    let text := re_sub special_at " " text in
    let text := strip (re_sub spaces_at " " text) in
    text.

End Preprocessor.

(** ** Shared data model *)

Module Data.

(** [x > y] and [x >= y] on scores, as booleans. *)
Definition Qgtb (x y : Q) : bool := negb (Qle_bool x y).

(** The feedback envelope: the dict built by the preprocessor, one field
    per key; [None] is an absent key. *)
Record Feedback := {
  fb_text : option string;
  fb_source : option string;
  fb_timestamp : option string;
  fb_username : option string;
  fb_score : option Z;
  fb_permalink : option string;
  fb_authenticity_score : option Q;
  fb_account_age_days : option Z;
  fb_verified_purchase : option bool;
  fb_subreddit : option string;
  fb_post_title : option string;
  fb_post_score : option Z;
  fb_video_title : option string;
  fb_channel_name : option string;
  fb_video_views : option Z;
  fb_timestamp_in_video : option string;
  fb_product_title : option string;
  fb_star_rating : option Z;
  fb_review_title : option string
}.

(** [d.get(key, dflt)] *)
Definition get {A : Type} (field : option A) (dflt : A) : A :=
  match field with Some v => v | None => dflt end.

Record Alternative := {
  alt_product_id : string;
  alt_score : Q
}.

Record ContextFactors := {
  brand_mentioned : bool;
  product_type_mentioned : bool;
  identifier_mentioned : bool
}.

(** The match-info dict.  The matcher always sets [match_score]; the atom
    creator reads it with a default, so the key may be absent there. *)
Record MatchInfo := {
  match_method : string;
  match_score : option Q;
  alternative_matches : list Alternative;
  context_factors : ContextFactors
}.

(** [source_specific_data]: empty, or one sub-dict named after the source. *)
Inductive SourceData :=
| no_source_data
| reddit_data (subreddit post_title : string) (post_score : Z)
| youtube_data (video_title channel_name : string) (video_views : Z)
               (timestamp_in_video : string)
| amazon_data (product_title : string) (star_rating : Z) (review_title : string).

Record Metadata := {
  username_hash : string;
  upvotes : Z;
  permalink : string
}.

Record TrustAtom := {
  atom_id : string;
  product_id : string;
  source : string;
  timestamp : string;
  feedback_text : string;
  summary_text : string;
  sentiment_label : string;
  authenticity_score : Q;
  confidence_score : Q;
  tags : list string;
  metadata : Metadata;
  product_match_info : MatchInfo;
  source_specific_data : SourceData
}.

End Data.

(** ** content_analyzer.py *)

Module ContentAnalyzer.
Import PyStr Data.

Definition positive_keywords : list string :=
  ["love"; "great"; "excellent"; "amazing"; "perfect"; "recommend";
   "awesome"; "fantastic"; "wonderful"; "best"; "favorite"; "worth"].

Definition negative_keywords : list string :=
  ["hate"; "terrible"; "awful"; "disappointing"; "waste"; "avoid";
   "bad"; "worst"; "horrible"; "useless"; "regret"; "return"].

Definition neutral_keywords : list string :=
  ["okay"; "ok"; "fine"; "average"; "decent"; "alright"; "so-so"].

(** [sum(1 for word in keywords if word in text_lower)] *)
Definition count_in (keywords : list string) (text_lower : string) : nat :=
  List.length (List.filter (fun word => contains word text_lower) keywords).

(** [ContentAnalyzer.analyze_sentiment] *)
Definition analyze_sentiment (text : string) : string * Q :=
  let text_lower := lower text in
  let positive_count := count_in positive_keywords text_lower in
  let negative_count := count_in negative_keywords text_lower in
  if (0 <? positive_count)%nat && (negative_count =? 0)%nat then
    ("positive", Qmin (0.5 + inject_Z (Z.of_nat positive_count) * 0.1) 0.9)
  else if (0 <? negative_count)%nat && (positive_count =? 0)%nat then
    ("negative", Qmin (0.5 + inject_Z (Z.of_nat negative_count) * 0.1) 0.9)
  else if (0 <? positive_count)%nat && (0 <? negative_count)%nat then
    if (negative_count <? positive_count)%nat then ("mixed", 0.7%Q)
    else if (positive_count <? negative_count)%nat then ("mixed", 0.7%Q)
    else ("mixed", 0.6%Q)
  else
    let neutral_count := count_in neutral_keywords text_lower in
    if (0 <? neutral_count)%nat then ("neutral", 0.7%Q)
    else ("neutral", 0.5%Q).

(** *** [re.split]

    The pieces of the text between the matches of a pattern, the pattern
    given by its matcher as for [re_sub]. *)
Fixpoint re_split_steps (m : matcher) (steps : nat) (cur : string) (s : string)
  : list string :=
  match steps with
  | O => [cur ++ s]
  | S k =>
      match s with
      | EmptyString => [cur]
      | String c s' =>
          match m s with
          | Some rest => cur :: re_split_steps m k "" rest
          | None => re_split_steps m k (cur ++ String c "") s'
          end
      end
  end.

Definition re_split (m : matcher) (s : string) : list string :=
  re_split_steps m (String.length s) "" s.

Definition is_stop (c : ascii) : bool :=
  Ascii.eqb c "." || Ascii.eqb c "!" || Ascii.eqb c "?".

(** [[.!?]+\s+] *)
Definition sentence_end_at : matcher := fun s =>
  match s with
  | EmptyString => None
  | String c s' =>
      if is_stop c then
        match drop_while is_stop s' with
        | EmptyString => None
        | String d r => if is_space d then Some (drop_while is_space r) else None
        end
      else None
  end.

(** [len(s.split())] *)
Definition word_count (s : string) : Z := Z.of_nat (List.length (split s)).

(** The [while] loop of [_rule_based_summary]: [rest] are the sentences
    from [sentence_index] on. *)
Fixpoint add_sentences (max_length : Z) (summary : string) (words : list string)
  (rest : list string) : string :=
  match rest with
  | [] => summary
  | next_sentence :: rest' =>
      if (Z.of_nat (List.length words) <? max_length)%Z then
        let next_words := split next_sentence in
        if (Z.of_nat (List.length words) + Z.of_nat (List.length next_words)
            <=? max_length)%Z
        then add_sentences max_length (summary ++ ". " ++ next_sentence)
                           (words ++ next_words)%list rest'
        else add_sentences max_length summary words rest'
      else summary
  end.

(** [ContentAnalyzer._rule_based_summary] *)
Definition _rule_based_summary (text : string) (max_length : Z) : string :=
  let sentences := re_split sentence_end_at text in
  let sentences := List.filter (fun s => (3 <? word_count s)%Z) sentences in
  match sentences with
  | [] => text
  | first :: rest => add_sentences max_length first (split first) rest
  end.

(** [ContentAnalyzer.generate_summary].  [summarizer] is the transformers
    pipeline when one was loaded; it answers [None] when it raises. *)
Definition generate_summary
  (summarizer : option (string -> Z -> Z -> option string))
  (text : string) (max_length min_length : Z) : string :=
  if (word_count text <=? max_length)%Z then text
  else
    match summarizer with
    | Some run =>
        match run ("summarize: " ++ text) max_length min_length with
        | Some summary => summary
        | None => _rule_based_summary text max_length
        end
    | None => _rule_based_summary text max_length
    end.

(** [bool(x)] for an optional number and an optional flag. *)
Definition truthy_num (x : option Z) : bool :=
  match x with Some v => negb (v =? 0)%Z | None => false end.

Definition truthy_flag (x : option bool) : bool :=
  match x with Some b => b | None => false end.

(** [ContentAnalyzer.calculate_authenticity] *)
Definition calculate_authenticity (feedback : Feedback) : Q :=
  let score := 0.5%Q in
  let source := lower (get (fb_source feedback) "") in
  let score :=
    if String.eqb source "reddit" then
      let upvotes := get (fb_score feedback) 0%Z in
      let score :=
        if (10 <? upvotes)%Z then (score + 0.1)%Q
        else if (50 <? upvotes)%Z then (score + 0.2)%Q
        else score in
      if truthy_num (fb_account_age_days feedback) then
        let account_age := get (fb_account_age_days feedback) 0%Z in
        if (365 <? account_age)%Z then (score + 0.1)%Q else score
      else score
    else if String.eqb source "youtube" then
      let likes := get (fb_score feedback) 0%Z in
      if (5 <? likes)%Z then (score + 0.1)%Q
      else if (20 <? likes)%Z then (score + 0.2)%Q
      else score
    else score in
  let score :=
    if truthy_flag (fb_verified_purchase feedback) then (score + 0.2)%Q else score in
  let text_length := word_count (get (fb_text feedback) "") in
  let score :=
    if (text_length <? 5)%Z then (score - 0.1)%Q
    else if (30 <? text_length)%Z then (score + 0.1)%Q
    else score in
  Qmax 0.1 (Qmin score 1.0).

End ContentAnalyzer.

(** ** trust_atom_creator.py *)

Module TrustAtomCreator.
Import PyStr Data.

Section Creator.
(** [hashlib.sha256(s.encode()).hexdigest()] *)
Variable sha256_hexdigest : string -> string.

(** [s[:n]] *)
Fixpoint take (n : nat) (s : string) : string :=
  match n, s with
  | S k, String c s' => String c (take k s')
  | _, _ => EmptyString
  end.

(** [TrustAtomCreator._anonymize_username] *)
Definition _anonymize_username (username : option string) : string :=
  match username with
  | None => "sha256:anonymous"
  | Some u =>
      if is_empty u then "sha256:anonymous"
      else "sha256:" ++ take 16 (sha256_hexdigest u)
  end.

(** [TrustAtomCreator.create_trust_atom].  [uuid_hex] is
    [uuid.uuid4().hex] and [now] is [datetime.now().isoformat()].  The
    schema check that may follow only writes to the log and does not
    change the atom. *)
Definition create_trust_atom (uuid_hex now : string)
  (feedback : Feedback)
  (product_match_result : option string * MatchInfo)
  (sentiment_result : string * Q)
  (tags : list string) (summary : option string) : TrustAtom :=
  let '(product_id, match_info) := product_match_result in
  let '(sentiment_label, sentiment_confidence) := sentiment_result in
  let product_id :=
    match product_id with
    | Some p => if truthy p then p else "unknown_product"
    | None => "unknown_product"
    end in
  let atom_id :=
    get (fb_source feedback) "unknown" ++ "_" ++ product_id ++ "_"
    ++ take 8 uuid_hex in
  let summary_text :=
    match summary with
    | Some s => s
    | None => get (fb_text feedback) ""
    end in
  let match_score := get (match_score match_info) 0.1%Q in
  let overall_confidence := (0.7 * match_score + 0.3 * sentiment_confidence)%Q in
  let authenticity_score := get (fb_authenticity_score feedback) 0.5%Q in
  let source := lower (get (fb_source feedback) "") in
  {| atom_id := atom_id;
     product_id := product_id;
     source := get (fb_source feedback) "unknown";
     timestamp := get (fb_timestamp feedback) now;
     feedback_text := get (fb_text feedback) "";
     summary_text := summary_text;
     sentiment_label := sentiment_label;
     authenticity_score := authenticity_score;
     confidence_score := overall_confidence;
     tags := tags;
     metadata :=
       {| username_hash := _anonymize_username (fb_username feedback);
          upvotes := get (fb_score feedback) 0%Z;
          permalink := get (fb_permalink feedback) "" |};
     product_match_info := match_info;
     source_specific_data :=
       if String.eqb source "reddit" then
         reddit_data (get (fb_subreddit feedback) "")
                     (get (fb_post_title feedback) "")
                     (get (fb_post_score feedback) 0%Z)
       else if String.eqb source "youtube" then
         youtube_data (get (fb_video_title feedback) "")
                      (get (fb_channel_name feedback) "")
                      (get (fb_video_views feedback) 0%Z)
                      (get (fb_timestamp_in_video feedback) "")
       else if String.eqb source "amazon" then
         amazon_data (get (fb_product_title feedback) "")
                     (get (fb_star_rating feedback) 0%Z)
                     (get (fb_review_title feedback) "")
       else no_source_data |}.
End Creator.

End TrustAtomCreator.


(** ** os.path and os.makedirs *)

Module PyOs.
Import PyStr.

(** What a call does: it returns a value or raises. *)
Inductive Exception := FileNotFoundError.

Inductive Outcome (A : Type) :=
| returned (value : A)
| raised (exception : Exception).

Arguments returned {A} value.
Arguments raised {A} exception.

Definition is_sep (c : ascii) : bool := Ascii.eqb c "/".

(** [p[:p.rfind('/') + 1]]: the path up to and with its last separator. *)
Fixpoint through_last_sep (p : string) : string :=
  match p with
  | EmptyString => EmptyString
  | String c p' =>
      let head := through_last_sep p' in
      if negb (is_empty head) then String c head
      else if is_sep c then String c EmptyString
      else EmptyString
  end.

(** [head.rstrip('/')] *)
Fixpoint rstrip_sep (s : string) : string :=
  match s with
  | EmptyString => EmptyString
  | String c s' =>
      let r := rstrip_sep s' in
      if is_sep c && is_empty r then EmptyString else String c r
  end.

(** [head == '/' * len(head)] *)
Fixpoint all_sep (s : string) : bool :=
  match s with
  | EmptyString => true
  | String c s' => is_sep c && all_sep s'
  end.

(** [os.path.dirname] (POSIX) *)
Definition dirname (p : string) : string :=
  let head := through_last_sep p in
  if truthy head && negb (all_sep head) then rstrip_sep head else head.

Fixpoint ends_with_sep (s : string) : bool :=
  match s with
  | EmptyString => false
  | String c EmptyString => is_sep c
  | String _ s' => ends_with_sep s'
  end.

(** [os.path.join(a, b)] (POSIX) *)
Definition join (a b : string) : string :=
  if starts_with "/" b then b
  else if is_empty a || ends_with_sep a then a ++ b
  else a ++ "/" ++ b.

(** [os.makedirs(path, exist_ok=True)]: the empty path is refused with
    [FileNotFoundError]; any other directory is there afterwards. *)
Definition makedirs (path : string) : Outcome unit :=
  if is_empty path then raised FileNotFoundError else returned tt.

End PyOs.

(** ** difflib.SequenceMatcher *)

Module Difflib.

(** [difflib.SequenceMatcher(None, a, b).ratio()] of Python's standard
    library, which the fuzzy stage of the matcher calls; it is not part of
    the repository.  The definitions follow CPython's algorithm: the longest
    matching block is found, then the pieces to its left and to its right
    are matched in the same way; characters of [b] that occur more than
    [len(b) // 100 + 1] times are left out of the search when
    [len(b) >= 200] and only extend a block found without them.  The ratio
    is 2 M / T for M matched characters and T the total length, and 1 when
    both strings are empty. *)

Definition chars (s : string) : list ascii := list_ascii_of_string s.

Definition count_char (c : ascii) (b : list ascii) : nat :=
  List.length (List.filter (Ascii.eqb c) b).

Definition popular (b : list ascii) (c : ascii) : bool :=
  (200 <=? List.length b)%nat
  && (List.length b / 100 + 1 <? count_char c b)%nat.

Section Blocks.
Variable pop : ascii -> bool.

(** One row of the table of match lengths: entry [j] is the length of the
    match that ends at [x] and [b[j]]. *)
Fixpoint dp_row (x : ascii) (b : list ascii) (diag : nat) (prev : list nat)
  : list nat :=
  match b, prev with
  | y :: b', p :: prev' =>
      (if Ascii.eqb x y && negb (pop y) then S diag else 0%nat)
      :: dp_row x b' p prev'
  | _, _ => []
  end.

(** The best block so far is replaced only by a strictly longer one. *)
Fixpoint scan_row (i j : nat) (row : list nat) (best : nat * nat * nat)
  : nat * nat * nat :=
  match row with
  | [] => best
  | k :: row' =>
      let '(_, _, bestsize) := best in
      scan_row i (S j) row'
        (if (bestsize <? k)%nat then (S i - k, S j - k, k)%nat else best)
  end.

Fixpoint dp (i : nat) (a b : list ascii) (prev : list nat)
  (best : nat * nat * nat) : nat * nat * nat :=
  match a with
  | [] => best
  | x :: a' =>
      let row := dp_row x b 0%nat prev in
      dp (S i) a' b row (scan_row i 0%nat row best)
  end.

Definition same_at (a b : list ascii) (i j : nat) : bool :=
  match nth_error a i, nth_error b j with
  | Some x, Some y => Ascii.eqb x y
  | _, _ => false
  end.

Fixpoint extend_left (steps : nat) (a b : list ascii) (m : nat * nat * nat)
  : nat * nat * nat :=
  match steps with
  | O => m
  | S n =>
      let '(i, j, k) := m in
      if (0 <? i)%nat && (0 <? j)%nat && same_at a b (i - 1) (j - 1)
      then extend_left n a b (i - 1, j - 1, S k)%nat
      else m
  end.

Fixpoint extend_right (steps : nat) (a b : list ascii) (m : nat * nat * nat)
  : nat * nat * nat :=
  match steps with
  | O => m
  | S n =>
      let '(i, j, k) := m in
      if same_at a b (i + k) (j + k)
      then extend_right n a b (i, j, S k)
      else m
  end.

(** [find_longest_match] on the whole of [a] and [b]. *)
Definition find_longest_match (a b : list ascii) : nat * nat * nat :=
  let m := dp 0%nat a b (List.repeat 0%nat (List.length b)) (0, 0, 0)%nat in
  let m := extend_left (List.length a) a b m in
  extend_right (List.length a) a b m.

(** The number of characters in the matching blocks of [a] and [b]. *)
Fixpoint matches (steps : nat) (a b : list ascii) : nat :=
  match steps with
  | O => 0%nat
  | S n =>
      let '(i, j, k) := find_longest_match a b in
      if (k =? 0)%nat then 0%nat
      else
        (k + matches n (firstn i a) (firstn j b)
         + matches n (skipn (i + k) a) (skipn (j + k) b))%nat
  end.

End Blocks.

Definition ratio (a b : string) : Q :=
  let la := List.length (chars a) in
  let lb := List.length (chars b) in
  if (la + lb =? 0)%nat then 1
  else
    inject_Z (2 * Z.of_nat (matches (popular (chars b)) (S la) (chars a) (chars b)))
    / inject_Z (Z.of_nat (la + lb)).

End Difflib.


(** ** product_matcher.py *)

Module ProductMatcher.
Import PyStr PyOs Data.

(** A registry entry; [None] is an absent key. *)
Record Product := {
  canonical_name : option string;
  brand : option string;
  category : option string;
  product_type : option string;
  aliases : option (list string);
  identifiers : option (list (string * string))
}.

(** The registry dict, in the order [items()] iterates. *)
Definition Registry := list (string * Product).

(** An entry of the unresolved-mention log. *)
Record Suggestion := {
  mention_text : string;
  logged_at : string;
  status : string
}.

(** The file [registry_suggestions.json]: absent, not parseable as JSON, or
    the list of entries written so far. *)
Inductive LogFile :=
| log_absent
| log_unreadable
| log_entries (entries : list Suggestion).

(** The entries [log_unmatched] starts from. *)
Definition load_suggestions (file : LogFile) : list Suggestion :=
  match file with
  | log_entries entries => entries
  | log_absent | log_unreadable => []
  end.

(** [self.unmatched_log_path], set in [ProductMatcher.__init__] from the
    path of the registry. *)
Definition unmatched_log_path (product_registry_path : string) : string :=
  join (dirname product_registry_path) "registry_suggestions.json".

(** [ProductMatcher.log_unmatched]; [now] is [datetime.now().isoformat()].
    The directory of the log is made first, outside any handler, so the
    call raises when the log path has no directory part. *)
Definition log_unmatched (product_registry_path now : string) (file : LogFile)
  (text : string) : Outcome LogFile :=
  match makedirs (dirname (unmatched_log_path product_registry_path)) with
  | raised exception => raised exception
  | returned _ =>
      let suggestions := load_suggestions file in
      returned
        (log_entries
           (suggestions ++ [ {| mention_text := text; logged_at := now;
                                status := "unprocessed" |} ]))
  end.

(** Truth value of an optional product id: [None] and [""] are false. *)
Definition truthy_id (product_id : option string) : bool :=
  match product_id with
  | Some p => truthy p
  | None => false
  end.

(** [ProductMatcher.exact_alias_match], the loop over [registry.items()]. *)
Fixpoint exact_alias_loop (text_lower : string) (items : Registry)
  : option string * Q :=
  match items with
  | [] => (None, 0%Q)
  | (product_id, product) :: rest =>
      let canonical := lower (get (canonical_name product) "") in
      if truthy canonical && contains canonical text_lower
      then (Some product_id, 0.95%Q)
      else if existsb (fun alias => contains (lower alias) text_lower)
                      (get (aliases product) [])
      then (Some product_id, 0.9%Q)
      else exact_alias_loop text_lower rest
  end.

Definition exact_alias_match (registry : Registry) (text : string)
  : option string * Q :=
  exact_alias_loop (lower text) registry.

(** [ProductMatcher.semantic_similarity_match]: a placeholder in the
    source, it finds nothing. *)
Definition semantic_similarity_match (text : string) : option string * Q :=
  (None, 0%Q).

(** The fallback match info of [match_product]. *)
Definition fallback_info : MatchInfo :=
  {| match_method := "fallback";
     match_score := Some 0.1%Q;
     alternative_matches := [];
     context_factors :=
       {| brand_mentioned := false;
          product_type_mentioned := false;
          identifier_mentioned := false |} |}.

Section Matcher.
(** [ProductMatcher._fuzzy_match_score]:
    [SequenceMatcher(None, str1, str2).ratio()]. *)
Variable _fuzzy_match_score : string -> string -> Q.

Variable registry : Registry.

(** The brands found in the text, one entry per product that names one. *)
Definition mentioned_brands (text_lower : string) : list string :=
  flat_map
    (fun item : string * Product =>
       let brand := lower (get (brand (snd item)) "") in
       if truthy brand && contains brand text_lower then [brand] else [])
    registry.

(** The two scoring loops of [fuzzy_brand_product_match]; [brands] is
    [Some] of the mentioned brands in the first loop, which boosts the
    score, and [None] in the second. *)
Fixpoint fuzzy_loop (brands : option (list string)) (text_lower : string)
  (items : Registry) (best_match : option string) (best_score : Q)
  : option string * Q :=
  match items with
  | [] => (best_match, best_score)
  | (product_id, product) :: rest =>
      let canonical := lower (get (canonical_name product) "") in
      match brands with
      | Some mentioned =>
          if existsb (String.eqb (lower (get (brand product) ""))) mentioned
          then
            let score := (_fuzzy_match_score canonical text_lower * 1.2)%Q in
            if Qgtb score best_score
            then fuzzy_loop brands text_lower rest (Some product_id) score
            else fuzzy_loop brands text_lower rest best_match best_score
          else fuzzy_loop brands text_lower rest best_match best_score
      | None =>
          let score := _fuzzy_match_score canonical text_lower in
          if Qgtb score best_score
          then fuzzy_loop brands text_lower rest (Some product_id) score
          else fuzzy_loop brands text_lower rest best_match best_score
      end
  end.

(** [ProductMatcher.fuzzy_brand_product_match] *)
Definition fuzzy_brand_product_match (text : string) : option string * Q :=
  let text_lower := lower text in
  let mentioned := mentioned_brands text_lower in
  let '(best_match, best_score) :=
    match mentioned with
    | [] => fuzzy_loop None text_lower registry None 0%Q
    | _ :: _ => fuzzy_loop (Some mentioned) text_lower registry None 0%Q
    end in
  (best_match, Qmin best_score 1.0%Q).

(** [list.sort(key=score, reverse=True)]: stable, larger scores first. *)
Fixpoint insert_desc (x : string * Q) (sorted : list (string * Q))
  : list (string * Q) :=
  match sorted with
  | [] => [x]
  | y :: rest =>
      if Qgtb (snd y) (snd x) then y :: insert_desc x rest else x :: sorted
  end.

Definition sort_desc (l : list (string * Q)) : list (string * Q) :=
  fold_right insert_desc [] l.

(** [ProductMatcher._get_alternative_matches] *)
Definition _get_alternative_matches (text : string) (limit : nat)
  : list Alternative :=
  let text_lower := lower text in
  let all_matches :=
    List.map
      (fun item : string * Product =>
         (fst item,
          _fuzzy_match_score (lower (get (canonical_name (snd item)) "")) text_lower))
      registry in
  let all_matches := sort_desc all_matches in
  List.map
    (fun m : string * Q => {| alt_product_id := fst m; alt_score := snd m |})
    (firstn limit (skipn 1%nat all_matches)).

Definition any_brand_in (text : string) : bool :=
  existsb
    (fun item : string * Product =>
       let brand := lower (get (brand (snd item)) "") in
       truthy brand && contains brand (lower text))
    registry.

Definition any_type_in (text : string) : bool :=
  existsb
    (fun item : string * Product =>
       let type := lower (get (product_type (snd item)) "") in
       truthy type && contains type (lower text))
    registry.

Definition any_identifier_in (text : string) : bool :=
  existsb
    (fun item : string * Product =>
       existsb
         (fun id : string * string => truthy (snd id) && contains (snd id) text)
         (get (identifiers (snd item)) []))
    registry.

(** [ProductMatcher._create_match_info] *)
Definition _create_match_info (method : string) (score : Q) (text : string)
  : MatchInfo :=
  {| match_method := method;
     match_score := Some score;
     alternative_matches := _get_alternative_matches text 3%nat;
     context_factors :=
       {| brand_mentioned := any_brand_in text;
          product_type_mentioned := any_type_in text;
          identifier_mentioned := any_identifier_in text |} |}.

(** The path the matcher was constructed with. *)
Variable product_registry_path : string.

(** [ProductMatcher.match_product].  [embeddings] tells whether embeddings
    were loaded and are not empty; [log] is the unresolved-mention log
    before the call, and the log after the call is returned with the
    result.  The call raises when logging the mention raises. *)
Definition match_product (embeddings : bool) (now : string) (log : LogFile)
  (text : string) : Outcome ((option string * MatchInfo) * LogFile) :=
  let '(product_id, confidence) := exact_alias_match registry text in
  if truthy_id product_id && Qgtb confidence 0.8%Q then
    returned ((product_id, _create_match_info "exact_alias" confidence text), log)
  else
    let '(product_id, confidence) := fuzzy_brand_product_match text in
    if truthy_id product_id && Qgtb confidence 0.6%Q then
      returned
        ((product_id, _create_match_info "fuzzy_brand_product" confidence text), log)
    else
      let '(product_id, confidence) := semantic_similarity_match text in
      if embeddings && truthy_id product_id && Qgtb confidence 0.5%Q then
        returned
          ((product_id, _create_match_info "semantic_similarity" confidence text), log)
      else
        match log_unmatched product_registry_path now log text with
        | raised exception => raised exception
        | returned log' => returned ((None, fallback_info), log')
        end.

End Matcher.

End ProductMatcher.


(** ** storage.py *)

Module Storage.
Import PyStr Data.

(** The content of a collection file, as [json.load] sees it: not
    parseable, or the list of atoms written so far. *)
Inductive JsonFile (Atom : Type) :=
| unreadable
| atoms_of (atoms : list Atom).

Arguments unreadable {Atom}.
Arguments atoms_of {Atom} atoms.

(** The three directories under the base path, each a map from the name of
    a collection (the file [<name>.json]) to its content. *)
Record Store (Atom : Type) := {
  categories : gmap string (JsonFile Atom);
  sources : gmap string (JsonFile Atom);
  trust_atoms : gmap string (JsonFile Atom)
}.

Arguments categories {Atom} _.
Arguments sources {Atom} _.
Arguments trust_atoms {Atom} _.

(** [TrustAtomStorage._get_category] *)
Definition _get_category (product_id : string) : string :=
  if contains "cleanser" product_id || contains "moisturizer" product_id
     || contains "serum" product_id
  then "skincare"
  else if contains "food" product_id || contains "snack" product_id
          || contains "drink" product_id
  then "food"
  else if contains "detergent" product_id || contains "cleaner" product_id
  then "household"
  else "unknown".

Section Storage.
(** A stored atom is any dict; the storage reads two of its keys. *)
Context {Atom : Type}.
(** [trust_atom.get("product_id")] and [trust_atom.get("source")] *)
Variable get_product_id : Atom -> option string.
Variable get_source : Atom -> option string.

(** [TrustAtomStorage._store_in_file]: read, append, write back.  A file
    that cannot be parsed makes [json.load] raise; the handler returns
    [False] and the file stays as it is. *)
Definition _store_in_file (trust_atom : Atom) (name : string)
  (dir : gmap string (JsonFile Atom)) : gmap string (JsonFile Atom) * bool :=
  match dir !! name with
  | None => (<[name := atoms_of [trust_atom]]> dir, true)
  | Some (atoms_of existing_data) =>
      (<[name := atoms_of (existing_data ++ [trust_atom])]> dir, true)
  | Some unreadable => (dir, false)
  end.

(** [TrustAtomStorage.store_by_category] *)
Definition store_by_category (st : Store Atom) (trust_atom : Atom)
  : Store Atom * bool :=
  let category := _get_category (get (get_product_id trust_atom) "unknown") in
  let '(dir, ok) := _store_in_file trust_atom category (categories st) in
  ({| categories := dir; sources := sources st; trust_atoms := trust_atoms st |}, ok).

(** [TrustAtomStorage.store_by_source] *)
Definition store_by_source (st : Store Atom) (trust_atom : Atom)
  : Store Atom * bool :=
  let source := get (get_source trust_atom) "unknown" in
  let '(dir, ok) := _store_in_file trust_atom source (sources st) in
  ({| categories := categories st; sources := dir; trust_atoms := trust_atoms st |}, ok).

(** [TrustAtomStorage.store_as_trust_atom] *)
Definition store_as_trust_atom (st : Store Atom) (trust_atom : Atom)
  : Store Atom * bool :=
  let product_id := get (get_product_id trust_atom) "unknown" in
  let '(dir, ok) := _store_in_file trust_atom product_id (trust_atoms st) in
  ({| categories := categories st; sources := sources st; trust_atoms := dir |}, ok).

(** The result dict of [store_all]. *)
Record StoreResults := {
  category_ok : bool;
  source_ok : bool;
  trust_atom_ok : bool
}.

(** [TrustAtomStorage.store_all] *)
Definition store_all (st : Store Atom) (trust_atom : Atom)
  : Store Atom * StoreResults :=
  let '(st, r1) := store_by_category st trust_atom in
  let '(st, r2) := store_by_source st trust_atom in
  let '(st, r3) := store_as_trust_atom st trust_atom in
  (st, {| category_ok := r1; source_ok := r2; trust_atom_ok := r3 |}).

(** [store_all] called on each atom of a batch in turn. *)
Fixpoint store_each (st : Store Atom) (batch : list Atom) : Store Atom :=
  match batch with
  | [] => st
  | trust_atom :: rest => store_each (fst (store_all st trust_atom)) rest
  end.

(** The atoms of one category file that belong to [product_id]; a file
    that cannot be parsed is skipped. *)
Definition product_atoms (product_id : string) (file : JsonFile Atom) : list Atom :=
  match file with
  | atoms_of category_atoms =>
      List.filter
        (fun atom => bool_decide (get_product_id atom = Some product_id))
        category_atoms
  | unreadable => []
  end.

(** [TrustAtomStorage.get_trust_atoms_by_product]: the product file when
    it is there and can be read, otherwise a scan of every category file,
    in the order the directory lists them. *)
Definition get_trust_atoms_by_product (st : Store Atom) (product_id : string)
  : list Atom :=
  match trust_atoms st !! product_id with
  | Some (atoms_of atoms) => atoms
  | Some unreadable | None =>
      flat_map (fun entry : string * JsonFile Atom => product_atoms product_id (snd entry))
               (map_to_list (categories st))
  end.

End Storage.

End Storage.


(** ** storage.py: retrieval by source and by category *)

Module StorageQueries.
Import PyStr Data Storage.

(** What a retrieval reads from one collection file: nothing when the file
    is absent (a warning is logged) or cannot be parsed (an error is
    logged). *)
Definition read_collection {Atom : Type} (file : option (JsonFile Atom))
  : list Atom :=
  match file with
  | Some (atoms_of atoms) => atoms
  | Some unreadable | None => []
  end.

(** [TrustAtomStorage.get_trust_atoms_by_source] *)
Definition get_trust_atoms_by_source {Atom : Type} (st : Store Atom)
  (source : string) : list Atom :=
  read_collection (sources st !! source).

(** [TrustAtomStorage.get_trust_atoms_by_category] *)
Definition get_trust_atoms_by_category {Atom : Type} (st : Store Atom)
  (category : string) : list Atom :=
  read_collection (categories st !! category).

End StorageQueries.


(** ** preprocessor.py: the envelope, segmentation, anonymization *)

Module Envelope.
Import PyStr Data Preprocessor.

(** A raw [created_utc]: a number of seconds, or a value of another kind
    (text), which is passed through. *)
Inductive RawTime :=
| time_number (seconds : Q)
| time_text (text : string).

(** A Reddit comment and the post data the pipeline passes with it; an
    absent key is [None]. *)
Record RedditComment := {
  rc_body : option string;
  rc_author : option string;
  rc_created_utc : option RawTime;
  rc_score : option Z;
  rc_id : option string
}.

Record PostData := {
  pd_permalink : option string;
  pd_subreddit : option string;
  pd_title : option string;
  pd_score : option Z
}.

Record YoutubeComment := {
  yc_text : option string;
  yc_author : option string;
  yc_published_at : option string;
  yc_like_count : option Z;
  yc_url : option string;
  yc_timestamp_in_video : option string;
  yc_id : option string
}.

Record VideoData := {
  vd_title : option string;
  vd_channel_name : option string;
  vd_view_count : option Z
}.

(** The standardized comment: every key is set, a value may be [None]. *)
Record Processed := {
  p_text : string;
  p_source : string;
  p_timestamp : option string;
  p_username : option string;
  p_score : Z;
  p_permalink : option string;
  p_subreddit : option string;
  p_post_title : option string;
  p_post_score : Z;
  p_video_title : option string;
  p_channel_name : option string;
  p_video_views : Z;
  p_timestamp_in_video : option string;
  p_comment_id : option string
}.

Section Clock.
(** [datetime.fromtimestamp(t).isoformat()] and [datetime.now().isoformat()] *)
Variable isoformat : Q -> string.
Variable now : string.

(** [DataPreprocessor.process_reddit_comment]; the keys of the YouTube
    shape are not in its result and read as [None] or 0 here. *)
Definition process_reddit_comment (comment : RedditComment) (post_data : PostData)
  : Processed :=
  let body := get (rc_body comment) "" in
  let cleaned_text := clean_text body in
  let timestamp :=
    match rc_created_utc comment with
    | Some (time_number seconds) => Some (isoformat seconds)
    | Some (time_text text) => Some text
    | None => None
    end in
  {| p_text := cleaned_text;
     p_source := "reddit";
     p_timestamp := timestamp;
     p_username := rc_author comment;
     p_score := get (rc_score comment) 0%Z;
     p_permalink := pd_permalink post_data;
     p_subreddit := pd_subreddit post_data;
     p_post_title := pd_title post_data;
     p_post_score := get (pd_score post_data) 0%Z;
     p_video_title := None;
     p_channel_name := None;
     p_video_views := 0%Z;
     p_timestamp_in_video := None;
     p_comment_id := rc_id comment |}.

(** [DataPreprocessor.process_youtube_comment] *)
Definition process_youtube_comment (comment : YoutubeComment) (video_data : VideoData)
  : Processed :=
  let text := get (yc_text comment) "" in
  let cleaned_text := clean_text text in
  let timestamp :=
    match yc_published_at comment with
    | Some t => if truthy t then t else now
    | None => now
    end in
  {| p_text := cleaned_text;
     p_source := "youtube";
     p_timestamp := Some timestamp;
     p_username := yc_author comment;
     p_score := get (yc_like_count comment) 0%Z;
     p_permalink := yc_url comment;
     p_subreddit := None;
     p_post_title := None;
     p_post_score := 0%Z;
     p_video_title := vd_title video_data;
     p_channel_name := vd_channel_name video_data;
     p_video_views := get (vd_view_count video_data) 0%Z;
     p_timestamp_in_video := yc_timestamp_in_video comment;
     p_comment_id := yc_id comment |}.

End Clock.

(** [s.split(sep)] for a one-character separator: the pieces between the
    separators, empty ones included. *)
Fixpoint split_on (sep : ascii) (cur : string) (s : string) : list string :=
  match s with
  | EmptyString => [cur]
  | String c s' =>
      if Ascii.eqb c sep then cur :: split_on sep "" s'
      else split_on sep (cur ++ String c "") s'
  end.

Definition newline : ascii := ascii_of_nat 10.

(** [[p.strip() for p in pieces if p.strip()]] *)
Definition stripped_nonempty (pieces : list string) : list string :=
  List.map strip (List.filter (fun p => truthy (strip p)) pieces).

Record Segments := {
  full_text : string;
  paragraphs : list string;
  sentences : list string
}.

(** [DataPreprocessor.segment_text] *)
Definition segment_text (text : string) : Segments :=
  {| full_text := text;
     paragraphs := stripped_nonempty (split_on newline "" text);
     sentences :=
       stripped_nonempty
         (ContentAnalyzer.re_split ContentAnalyzer.sentence_end_at text) |}.

(** [DataPreprocessor.anonymize_username] *)
Definition anonymize_username (sha256_hexdigest : string -> string)
  (username : option string) : string :=
  match username with
  | None => "sha256:anonymous"
  | Some u =>
      if is_empty u then "sha256:anonymous"
      else "sha256:" ++ TrustAtomCreator.take 16 (sha256_hexdigest u)
  end.

End Envelope.

(** ** content_analyzer.py: tag extraction *)

Module Tags.
Import PyStr Data.

(** [ContentAnalyzer._load_tag_dictionaries] *)
Definition tag_dictionaries : list (string * list (string * list string)) :=
  [("skincare",
    [("skin_types", ["oily"; "dry"; "combination"; "sensitive"; "acne-prone"]);
     ("concerns", ["acne"; "wrinkles"; "redness"; "dark spots"; "blackheads"; "pores"]);
     ("ingredients", ["retinol"; "vitamin c"; "hyaluronic acid"; "niacinamide";
                      "salicylic acid"; "benzoyl peroxide"; "ceramides"; "peptides";
                      "aha"; "bha"])]);
   ("food",
    [("flavors", ["sweet"; "savory"; "spicy"; "bitter"; "sour"; "umami"]);
     ("dietary", ["vegan"; "gluten-free"; "keto"; "organic"; "non-gmo"; "paleo";
                  "vegetarian"]);
     ("texture", ["crunchy"; "smooth"; "creamy"; "crispy"; "chewy"; "soft"])]);
   ("household",
    [("features", ["eco-friendly"; "biodegradable"; "reusable"; "disposable";
                   "concentrated"]);
     ("concerns", ["stains"; "odor"; "germs"; "bacteria"; "allergens"; "dust"]);
     ("surfaces", ["carpet"; "wood"; "glass"; "tile"; "fabric"; "metal"; "plastic"])])].

(** [tag_dictionaries.get(category, {})] *)
Fixpoint lookup_category (category : string)
  (dicts : list (string * list (string * list string)))
  : list (string * list string) :=
  match dicts with
  | [] => []
  | (name, d) :: rest =>
      if String.eqb name category then d else lookup_category category rest
  end.

Definition word_opt (c : option ascii) : bool :=
  match c with Some x => is_word x | None => false end.

(** [\b] between two neighbouring positions; [None] is an end of the text. *)
Definition boundary (before after : option ascii) : bool :=
  xorb (word_opt before) (word_opt after).

Definition head_char (s : string) : option ascii :=
  match s with EmptyString => None | String c _ => Some c end.

Fixpoint last_char (dflt : option ascii) (s : string) : option ascii :=
  match s with
  | EmptyString => dflt
  | String c s' => last_char (Some c) s'
  end.

(** [\b<tag>\b] matches at the head of [s]; [prev] is the character before. *)
Definition word_at (prev : option ascii) (tag s : string) : bool :=
  match strip_prefix tag s with
  | Some rest =>
      boundary prev (head_char s) && boundary (last_char prev tag) (head_char rest)
  | None => false
  end.

(** [re.search(r'\b' + re.escape(tag) + r'\b', s)] finds a match. *)
Fixpoint search_word_from (prev : option ascii) (tag s : string) : bool :=
  word_at prev tag s
  || match s with
     | EmptyString => false
     | String c s' => search_word_from (Some c) tag s'
     end.

Definition search_word (tag s : string) : bool := search_word_from None tag s.

(** [ContentAnalyzer.extract_tags]; the result is the set behind
    [list(tags)], whose order is not determined. *)
Definition extract_tags (text category : string) : gset string :=
  let text_lower := lower text in
  let category_dict := lookup_category category tag_dictionaries in
  let found :=
    flat_map
      (fun entry : string * list string =>
         List.filter (fun tag => search_word tag text_lower) (snd entry))
      category_dict in
  list_to_set found ∪ {[ category ]}.

End Tags.

(** ** pipeline.py *)

Module Pipeline.
Import PyStr Data.

(** The category the pipeline extracts tags for, from the matched id. *)
Definition tag_category (product_id : option string) : string :=
  match product_id with
  | Some p =>
      if truthy p then
        if contains "cleanser" p || contains "moisturizer" p then "skincare"
        else if contains "food" p || contains "snack" p then "food"
        else "unknown"
      else "unknown"
  | None => "unknown"
  end.

(** [max_items and count >= max_items] *)
Definition limit_reached (max_items : option Z) (count : nat) : bool :=
  match max_items with
  | Some m => negb (m =? 0)%Z && (m <=? Z.of_nat count)%Z
  | None => false
  end.

Section Batch.
(** The two batch entry points run the same loops; they differ in the key
    of the comment text and in the steps applied to a kept comment. *)
Context {Post Comment State Atom : Type}.
(** [post.get("comments", [])] *)
Variable comments_of : Post -> list Comment.
(** [comment.get("body", "")], [comment.get("text", "")] *)
Variable text_of : Comment -> string.
(** Steps 1 to 5 for one comment: the atom created and the state (log and
    storage) they leave. *)
Variable process : State -> Post -> Comment -> State * Atom.

(** The state and the atoms so far; [count] is the number of atoms, the
    two grow together. *)
Definition Progress : Type := State * list Atom.

(** The inner loop over the comments of one post. *)
Fixpoint comment_loop (max_items : option Z) (post : Post)
  (comments : list Comment) (acc : Progress) : Progress :=
  match comments with
  | [] => acc
  | comment :: rest =>
      let '(st, trust_atoms) := acc in
      if limit_reached max_items (List.length trust_atoms) then acc
      else if is_empty (strip (text_of comment))
      then comment_loop max_items post rest acc
      else
        let '(st', trust_atom) := process st post comment in
        let acc' := (st', (trust_atoms ++ [trust_atom])%list) in
        if limit_reached max_items (List.length (trust_atoms ++ [trust_atom])%list)
        then acc'
        else comment_loop max_items post rest acc'
  end.

(** The outer loop over the posts. *)
Fixpoint post_loop (max_items : option Z) (posts : list Post) (acc : Progress)
  : Progress :=
  match posts with
  | [] => acc
  | post :: rest =>
      post_loop max_items rest (comment_loop max_items post (comments_of post) acc)
  end.

(** [process_reddit_data] and [process_youtube_data]: [raw_data] is [None]
    when the input file is missing or is not JSON. *)
Definition process_data (max_items : option Z) (st : State)
  (raw_data : option (list Post)) : State * list Atom :=
  match raw_data with
  | None => (st, [])
  | Some posts => post_loop max_items posts (st, [])
  end.

End Batch.

End Pipeline.

(** ** trust_atom_creator.py: validation and the single output file *)

Module AtomFile.
Import PyStr Data Storage.

(** The keys of the dict [create_trust_atom] builds. *)
Definition atom_keys : list string :=
  ["atom_id"; "product_id"; "source"; "timestamp"; "feedback_text";
   "summary_text"; "sentiment_label"; "authenticity_score";
   "confidence_score"; "tags"; "metadata"; "product_match_info";
   "source_specific_data"].

(** [TrustAtomCreator._validate_trust_atom] on a created atom; [schema] is
    [None] when no schema was loaded or the schema is empty, and otherwise
    [schema.get("required", [])]. *)
Definition _validate_trust_atom (schema : option (list string)) : bool :=
  match schema with
  | None => true
  | Some required_fields =>
      forallb (fun field => existsb (String.eqb field) atom_keys) required_fields
  end.

(** [TrustAtomCreator.save_trust_atom]: the output file is absent
    ([None]) or has the content given; the file after the call and the
    flag returned.  The directory of the output path is made first, inside
    the handler: when the path has no directory part that raises, and the
    call returns [False] with nothing written.  The atom is one built by
    [create_trust_atom], so the [atom_id] the success message reads is
    there. *)
Definition save_trust_atom (atom : TrustAtom) (output_path : string)
  (file : option (JsonFile TrustAtom)) : option (JsonFile TrustAtom) * bool :=
  match PyOs.makedirs (PyOs.dirname output_path) with
  | PyOs.raised _ => (file, false)
  | PyOs.returned _ =>
      match file with
      | None => (Some (atoms_of [atom]), true)
      | Some (atoms_of existing_data) =>
          (Some (atoms_of (existing_data ++ [atom])), true)
      | Some unreadable => (file, false)
      end
  end.

End AtomFile.


(** * Properties *)

(** ** Facts about the string primitives *)

Module PyStrFacts.
Import PyStr.

Fixpoint all_chars (p : ascii -> bool) (s : string) : bool :=
  match s with
  | EmptyString => true
  | String c s' => p c && all_chars p s'
  end.

Definition head_space (s : string) : bool :=
  match s with
  | EmptyString => false
  | String c _ => is_space c
  end.

Fixpoint last_space (s : string) : bool :=
  match s with
  | EmptyString => false
  | String c EmptyString => is_space c
  | String _ s' => last_space s'
  end.

(** A pattern consumes input: what follows a match is shorter than the
    text the match started in. *)
Definition consumes (m : matcher) : Prop :=
  forall s rest, m s = Some rest -> (String.length rest < String.length s)%nat.

Lemma drop_while_length p s :
  (String.length (drop_while p s) <= String.length s)%nat.
Proof.
  induction s as [|c s IH]; simpl; [lia|].
  destruct (p c); simpl; lia.
Qed.

Lemma strip_prefix_app p : forall s r, strip_prefix p s = Some r -> s = p ++ r.
Proof.
  induction p as [|a p IH]; intros s r H; simpl in *.
  - now inversion H.
  - destruct s as [|b s]; [discriminate|].
    destruct (Ascii.eqb a b) eqn:E; [|discriminate].
    apply Ascii.eqb_eq in E. subst b. f_equal. now apply IH.
Qed.

Lemma string_length_app (a b : string) :
  String.length (a ++ b) = (String.length a + String.length b)%nat.
Proof. induction a as [|c a IH]; simpl; [reflexivity | now rewrite IH]. Qed.

Lemma nonspace_run_consumes : consumes nonspace_run.
Proof.
  intros [|c s] rest H; simpl in H; [discriminate|].
  destruct (is_space c); [discriminate|]. inversion H; subst; simpl.
  pose proof (drop_while_length (fun x => negb (is_space x)) s). lia.
Qed.

Lemma special_at_consumes : consumes special_at.
Proof.
  intros [|c s] rest H; simpl in H; [discriminate|].
  destruct (is_word c || is_space c || Ascii.eqb c "'"); [discriminate|].
  inversion H; subst; simpl; lia.
Qed.

Lemma spaces_at_consumes : consumes spaces_at.
Proof.
  intros [|c s] rest H; simpl in H; [discriminate|].
  destruct (is_space c); [|discriminate]. inversion H; subst; simpl.
  pose proof (drop_while_length is_space s). lia.
Qed.

(** A URL match starts with one of the two schemes. *)
Lemma url_at_scheme s rest :
  url_at s = Some rest ->
  exists u, (s = "http://" ++ u \/ s = "https://" ++ u) /\ nonspace_run u = Some rest.
Proof.
  unfold url_at. intros H.
  destruct (strip_prefix "http" s) as [r|] eqn:E1; [|discriminate].
  apply strip_prefix_app in E1.
  assert (T : forall x, match strip_prefix "://" x with
                        | Some u => nonspace_run u | None => None end = Some rest ->
                        exists u, x = "://" ++ u /\ nonspace_run u = Some rest).
  { intros x Hx. destruct (strip_prefix "://" x) as [u|] eqn:E; [|discriminate].
    apply strip_prefix_app in E. eauto. }
  destruct (strip_prefix "s" r) as [r'|] eqn:E2.
  - apply strip_prefix_app in E2.
    destruct (match strip_prefix "://" r' with
              | Some u => nonspace_run u | None => None end) as [x|] eqn:E3.
    + inversion H; subst x. destruct (T _ E3) as (u & -> & Hu).
      exists u. split; [right; subst; reflexivity | exact Hu].
    + destruct (T _ H) as (u & -> & Hu).
      exists u. split; [left; subst; reflexivity | exact Hu].
  - destruct (T _ H) as (u & -> & Hu).
    exists u. split; [left; subst; reflexivity | exact Hu].
Qed.

Lemma url_at_consumes : consumes url_at.
Proof.
  intros s rest H. destruct (url_at_scheme _ _ H) as (u & Hs & Hu).
  apply nonspace_run_consumes in Hu.
  destruct Hs as [-> | ->]; simpl; lia.
Qed.

Section ReSub.
Variable m : matcher.
Variable repl : string.
Hypothesis m_consumes : consumes m.

(** Any number of steps from [length s] on gives the same result. *)
Lemma re_sub_steps_enough : forall k s,
  (String.length s <= k)%nat -> re_sub_steps m repl k s = re_sub m repl s.
Proof.
  unfold re_sub.
  induction k as [k IH] using lt_wf_ind. intros s Hk.
  destruct s as [|c s]; [destruct k; reflexivity|].
  destruct k as [|k]; [simpl in Hk; lia|].
  cbn [String.length re_sub_steps].
  destruct (m (String c s)) as [rest|] eqn:E.
  - apply m_consumes in E. simpl in E, Hk.
    rewrite (IH k) by lia.
    rewrite (IH (String.length s)) by lia. reflexivity.
  - simpl in Hk. rewrite (IH k) by lia. reflexivity.
Qed.

Lemma re_sub_nil : re_sub m repl "" = "".
Proof. reflexivity. Qed.

Lemma re_sub_cons c s :
  re_sub m repl (String c s) =
  match m (String c s) with
  | Some rest => repl ++ re_sub m repl rest
  | None => String c (re_sub m repl s)
  end.
Proof.
  unfold re_sub at 1. cbn [String.length re_sub_steps].
  destruct (m (String c s)) as [rest|] eqn:E.
  - apply m_consumes in E. simpl in E.
    rewrite re_sub_steps_enough by lia. reflexivity.
  - reflexivity.
Qed.
End ReSub.

End PyStrFacts.

(** ** preprocessor.py: [clean_text] reaches a normal form *)

Module PreprocessorFacts.
Import PyStr PyStrFacts Preprocessor.

Ltac ascii_cases c := destruct c as [[] [] [] [] [] [] [] []].

(** Characters the second substitution leaves in place. *)
Definition keep (c : ascii) : bool := is_word c || is_space c || Ascii.eqb c "'".

(** Characters of a cleaned text: word characters, apostrophes, blanks. *)
Definition fine (c : ascii) : bool := is_word c || Ascii.eqb c "'" || Ascii.eqb c " ".

#[local] Arguments keep : simpl never.
#[local] Arguments fine : simpl never.

(** Every whitespace character is a blank, and no two are adjacent. *)
Fixpoint squeezed (s : string) : bool :=
  match s with
  | EmptyString => true
  | String c s' =>
      (if is_space c then Ascii.eqb c " " && negb (head_space s') else true)
      && squeezed s'
  end.

(** The shape of a cleaned text. *)
Definition clean_form (s : string) : bool :=
  all_chars fine s && squeezed s && negb (head_space s) && negb (last_space s).

Lemma fine_keep c : fine c = true -> keep c = true.
Proof. ascii_cases c; vm_compute; congruence. Qed.

Lemma keep_nonspace_fine c : keep c = true -> is_space c = false -> fine c = true.
Proof. ascii_cases c; vm_compute; congruence. Qed.

Lemma fine_space_blank c : fine c = true -> is_space c = true -> c = " "%char.
Proof. ascii_cases c; vm_compute; congruence. Qed.

Lemma all_chars_app p a b : all_chars p (a ++ b) = all_chars p a && all_chars p b.
Proof.
  induction a as [|c a IH]; simpl; [reflexivity|].
  now rewrite IH, andb_assoc.
Qed.

Lemma all_chars_drop_while p q s :
  all_chars p s = true -> all_chars p (drop_while q s) = true.
Proof.
  induction s as [|c s IH]; simpl; [easy|].
  intros H. destruct (q c); [|exact H].
  apply andb_true_iff in H. now apply IH.
Qed.

Lemma head_space_drop_while s : head_space (drop_while is_space s) = false.
Proof.
  induction s as [|c s IH]; simpl; [reflexivity|].
  destruct (is_space c) eqn:E; [exact IH | simpl; exact E].
Qed.

Lemma drop_while_head s : head_space s = false -> drop_while is_space s = s.
Proof. destruct s as [|c s]; simpl; [easy|]. now intros ->. Qed.

Lemma squeezed_drop_while q s : squeezed s = true -> squeezed (drop_while q s) = true.
Proof.
  induction s as [|c s IH]; simpl; [easy|].
  intros H. destruct (q c); [|exact H].
  apply andb_true_iff in H. now apply IH.
Qed.

(** *** The three substitutions *)

Definition sub_urls := re_sub url_at "".
Definition sub_special := re_sub special_at " ".
Definition sub_spaces := re_sub spaces_at " ".

Lemma sub_special_cons c s :
  sub_special (String c s) =
  String (if keep c then c else " "%char) (sub_special s).
Proof.
  unfold sub_special. rewrite (re_sub_cons _ _ special_at_consumes).
  unfold special_at, keep. now destruct (is_word c || is_space c || Ascii.eqb c "'").
Qed.

Lemma sub_spaces_cons c s :
  sub_spaces (String c s) =
  if is_space c then String " " (sub_spaces (drop_while is_space s))
  else String c (sub_spaces s).
Proof.
  unfold sub_spaces. rewrite (re_sub_cons _ _ spaces_at_consumes).
  unfold spaces_at. now destruct (is_space c).
Qed.

Lemma sub_urls_cons c s :
  sub_urls (String c s) =
  match url_at (String c s) with
  | Some rest => sub_urls rest
  | None => String c (sub_urls s)
  end.
Proof.
  unfold sub_urls. rewrite (re_sub_cons _ _ url_at_consumes).
  now destruct (url_at (String c s)).
Qed.

Lemma sub_special_keep s : all_chars keep (sub_special s) = true.
Proof.
  induction s as [|c s IH]; [reflexivity|].
  rewrite sub_special_cons. cbn [all_chars]. rewrite IH, andb_true_r.
  destruct (keep c) eqn:E; [exact E | reflexivity].
Qed.

Lemma sub_spaces_head s : head_space (sub_spaces s) = head_space s.
Proof.
  destruct s as [|c s]; [reflexivity|].
  rewrite sub_spaces_cons. simpl.
  destruct (is_space c) eqn:E; simpl; [reflexivity | exact E].
Qed.

(** Induction on the length of the text, for substitutions whose matches
    are longer than one character. *)
Lemma string_length_ind (P : string -> Prop) :
  (forall s, (forall t, (String.length t < String.length s)%nat -> P t) -> P s) ->
  forall s, P s.
Proof.
  intros H s. remember (String.length s) as n eqn:En.
  revert s En. induction n as [n IH] using lt_wf_ind.
  intros s ->. apply H. intros t Ht. now apply (IH (String.length t)).
Qed.

Lemma sub_spaces_squeezed s : squeezed (sub_spaces s) = true.
Proof.
  induction s as [s IH] using string_length_ind.
  destruct s as [|c s]; [reflexivity|].
  rewrite sub_spaces_cons. destruct (is_space c) eqn:E.
  - simpl. rewrite sub_spaces_head, head_space_drop_while. simpl.
    apply IH. simpl. pose proof (drop_while_length is_space s). lia.
  - simpl. rewrite E. simpl. apply IH. simpl. lia.
Qed.

Lemma sub_spaces_fine s : all_chars keep s = true -> all_chars fine (sub_spaces s) = true.
Proof.
  induction s as [s IH] using string_length_ind.
  destruct s as [|c s]; [reflexivity|].
  simpl. intros H. apply andb_true_iff in H as [Hc Hs].
  rewrite sub_spaces_cons. destruct (is_space c) eqn:E; simpl.
  - apply IH.
    + simpl. pose proof (drop_while_length is_space s). lia.
    + now apply all_chars_drop_while.
  - rewrite (keep_nonspace_fine _ Hc E). simpl. apply IH; [simpl; lia | exact Hs].
Qed.

(** *** [strip] *)

Lemma rstrip_head s : head_space s = false -> head_space (rstrip s) = false.
Proof.
  destruct s as [|c s]; simpl; [easy|]. intros E. rewrite E. simpl. exact E.
Qed.

Lemma rstrip_head_inv s : head_space (rstrip s) = true -> head_space s = true.
Proof.
  destruct s as [|c s]; simpl; [easy|].
  destruct (is_space c && is_empty (rstrip s)); simpl; [discriminate | easy].
Qed.

Lemma rstrip_all_chars p s : all_chars p s = true -> all_chars p (rstrip s) = true.
Proof.
  induction s as [|c s IH]; simpl; [easy|].
  intros H. apply andb_true_iff in H as [Hc Hs].
  destruct (is_space c && is_empty (rstrip s)); simpl; [reflexivity|].
  now rewrite Hc, IH.
Qed.

Lemma rstrip_squeezed s : squeezed s = true -> squeezed (rstrip s) = true.
Proof.
  induction s as [|c s IH]; simpl; [easy|].
  intros H. apply andb_true_iff in H as [Hc Hs].
  destruct (is_space c && is_empty (rstrip s)) eqn:E; simpl; [reflexivity|].
  rewrite (IH Hs), andb_true_r.
  destruct (is_space c); [|reflexivity].
  apply andb_true_iff in Hc as [Hb Hh]. rewrite Hb. simpl.
  destruct (head_space (rstrip s)) eqn:Hr; [|reflexivity].
  apply rstrip_head_inv in Hr. now rewrite Hr in Hh.
Qed.

Lemma rstrip_last s : last_space (rstrip s) = false.
Proof.
  induction s as [|c s IH]; simpl; [reflexivity|].
  destruct (is_space c) eqn:Ec; simpl.
  - destruct (rstrip s) as [|d r] eqn:Er; simpl; [reflexivity | exact IH].
  - destruct (rstrip s) as [|d r] eqn:Er; simpl; [exact Ec | exact IH].
Qed.

Lemma rstrip_fixed s : last_space s = false -> rstrip s = s.
Proof.
  induction s as [|c s IH]; simpl; [easy|].
  destruct s as [|d s].
  - simpl. intros ->. reflexivity.
  - intros H. rewrite (IH H). now rewrite andb_false_r.
Qed.

Lemma strip_clean_form s :
  all_chars fine s = true -> squeezed s = true -> clean_form (strip s) = true.
Proof.
  intros Hf Hs. unfold clean_form, strip, lstrip.
  rewrite rstrip_all_chars by now apply all_chars_drop_while.
  rewrite rstrip_squeezed by now apply squeezed_drop_while.
  rewrite rstrip_head by apply head_space_drop_while.
  now rewrite rstrip_last.
Qed.

(** *** A text in clean form is left alone by every step *)

Lemma fine_no_url s : all_chars fine s = true -> url_at s = None.
Proof.
  intros H. destruct (url_at s) as [rest|] eqn:E; [|reflexivity].
  destruct (url_at_scheme _ _ E) as (u & [-> | ->] & _);
    rewrite all_chars_app in H; vm_compute in H; discriminate.
Qed.

Lemma sub_urls_fixed s : all_chars fine s = true -> sub_urls s = s.
Proof.
  induction s as [|c s IH]; [reflexivity|].
  intros H. rewrite sub_urls_cons, (fine_no_url _ H).
  simpl in H. apply andb_true_iff in H as [_ H]. now rewrite IH.
Qed.

Lemma sub_special_fixed s : all_chars fine s = true -> sub_special s = s.
Proof.
  induction s as [|c s IH]; [reflexivity|].
  simpl. intros H. apply andb_true_iff in H as [Hc H].
  now rewrite sub_special_cons, (fine_keep _ Hc), IH.
Qed.

Lemma sub_spaces_fixed s : squeezed s = true -> sub_spaces s = s.
Proof.
  induction s as [|c s IH]; [reflexivity|].
  simpl. intros H. apply andb_true_iff in H as [Hc H].
  rewrite sub_spaces_cons. destruct (is_space c).
  - apply andb_true_iff in Hc as [Hb Hh].
    apply Ascii.eqb_eq in Hb. subst c.
    rewrite drop_while_head by now destruct (head_space s).
    now rewrite IH.
  - now rewrite IH.
Qed.

Lemma strip_fixed s :
  head_space s = false -> last_space s = false -> strip s = s.
Proof.
  intros Hh Hl. unfold strip, lstrip. rewrite drop_while_head by exact Hh.
  now apply rstrip_fixed.
Qed.

Lemma clean_text_unfold text :
  clean_text text =
  if is_empty text then ""
  else strip (sub_spaces (sub_special (sub_urls text))).
Proof. reflexivity. Qed.

(** The output of [clean_text] is in clean form. *)
Lemma clean_text_clean_form text : clean_form (clean_text text) = true.
Proof.
  rewrite clean_text_unfold. destruct (is_empty text); [reflexivity|].
  apply strip_clean_form.
  - apply sub_spaces_fine, sub_special_keep.
  - apply sub_spaces_squeezed.
Qed.

(** A text in clean form is a fixed point of [clean_text]. *)
Lemma clean_form_fixed s : clean_form s = true -> clean_text s = s.
Proof.
  unfold clean_form. intros H.
  apply andb_true_iff in H as [H Hl]. apply andb_true_iff in H as [H Hh].
  apply andb_true_iff in H as [Hf Hs].
  apply negb_true_iff in Hl, Hh.
  rewrite clean_text_unfold. destruct s as [|c s]; [reflexivity|].
  cbn [is_empty].
  rewrite (sub_urls_fixed _ Hf), (sub_special_fixed _ Hf), (sub_spaces_fixed _ Hs).
  now apply strip_fixed.
Qed.

(** C8. For every input string [t], the empty one included, cleaning is
    idempotent: [clean_text (clean_text t) = clean_text t]. *)
Theorem clean_text_idempotent (t : string) :
  clean_text (clean_text t) = clean_text t.
Proof. apply clean_form_fixed, clean_text_clean_form. Qed.

Example clean_text_ex1 :
  clean_text "Check  this: https://x.com/a?b=1 it's GREAT!!" = "Check this it's GREAT".
Proof. vm_compute. reflexivity. Qed.

Example clean_text_ex2 : clean_text "" = "".
Proof. reflexivity. Qed.

End PreprocessorFacts.

(** ** content_analyzer.py *)

Module ContentAnalyzerFacts.
Import PyStr Data ContentAnalyzer.

(** The number of positions of [s] at which [word] starts. *)
Fixpoint occurrences (word s : string) : nat :=
  (if starts_with word s then 1 else 0)
  + match s with
    | EmptyString => 0
    | String _ s' => occurrences word s'
    end.

(** The number of keyword occurrences in a text, every repetition counted. *)
Definition total_occurrences (keywords : list string) (s : string) : nat :=
  list_sum (List.map (fun word => occurrences word s) keywords).

Lemma count_in_pos keywords s :
  (exists word, In word keywords /\ contains word s = true) ->
  (0 <? count_in keywords s)%nat = true.
Proof.
  intros (word & Hin & Hc). unfold count_in.
  assert (H : In word (List.filter (fun w => contains w s) keywords)).
  { apply filter_In. split; assumption. }
  destruct (List.filter (fun w => contains w s) keywords); [destruct H | reflexivity].
Qed.

Lemma count_in_zero keywords s :
  (forall word, In word keywords -> contains word s = false) ->
  count_in keywords s = 0%nat.
Proof.
  intros H. unfold count_in.
  induction keywords as [|k ks IH]; [reflexivity|].
  simpl. rewrite (H k) by (left; reflexivity).
  apply IH. intros w Hw. apply H. right. exact Hw.
Qed.

(** C6 (as stated, refuted). A text that repeats one positive keyword twice
    gets confidence 0.6, not the 0.7 that two occurrences would give. *)
Lemma analyze_sentiment_not_per_occurrence :
  let text := "love love" in
  total_occurrences positive_keywords (lower text) = 2%nat /\
  total_occurrences negative_keywords (lower text) = 0%nat /\
  fst (analyze_sentiment text) = "positive" /\
  snd (analyze_sentiment text) == 0.6 /\
  ~ snd (analyze_sentiment text)
    == Qmin (0.5 + inject_Z (Z.of_nat (total_occurrences positive_keywords (lower text))) * 0.1) 0.9.
Proof.
  cbv zeta. repeat split; try (vm_compute; reflexivity).
  vm_compute. discriminate.
Qed.

(** C6 (amended). When some positive keyword and no negative keyword occurs
    in the lowercased text, the label is "positive" and the confidence is
    min(0.5 + 0.1 n, 0.9) for n the number of distinct positive keywords
    that occur; and symmetrically for "negative". *)
Theorem analyze_sentiment_one_sided (text : string) :
  let present keywords :=
    List.filter (fun word => contains word (lower text)) keywords in
  let confidence keywords :=
    Qmin (0.5 + inject_Z (Z.of_nat (List.length (present keywords))) * 0.1) 0.9 in
  ((exists word, In word positive_keywords /\ contains word (lower text) = true) ->
   (forall word, In word negative_keywords -> contains word (lower text) = false) ->
   analyze_sentiment text = ("positive", confidence positive_keywords))
  /\
  ((exists word, In word negative_keywords /\ contains word (lower text) = true) ->
   (forall word, In word positive_keywords -> contains word (lower text) = false) ->
   analyze_sentiment text = ("negative", confidence negative_keywords)).
Proof.
  cbv zeta. split; intros Hsome Hnone.
  - unfold analyze_sentiment.
    rewrite (count_in_pos _ _ Hsome), (count_in_zero _ _ Hnone).
    reflexivity.
  - unfold analyze_sentiment.
    rewrite (count_in_pos _ _ Hsome), (count_in_zero _ _ Hnone).
    reflexivity.
Qed.

Lemma analyze_sentiment_one_sided_witness :
  analyze_sentiment "I love it, great value" =
    ("positive", Qmin (0.5 + inject_Z 2 * 0.1) 0.9)
  /\ analyze_sentiment "Terrible, I regret it" =
    ("negative", Qmin (0.5 + inject_Z 2 * 0.1) 0.9).
Proof.
  split.
  - apply (proj1 (analyze_sentiment_one_sided "I love it, great value")).
    + exists "love". split; [simpl; tauto | vm_compute; reflexivity].
    + intros word Hw. simpl in Hw.
      repeat (destruct Hw as [<- | Hw]; [vm_compute; reflexivity|]). destruct Hw.
  - apply (proj2 (analyze_sentiment_one_sided "Terrible, I regret it")).
    + exists "terrible". split; [simpl; tauto | vm_compute; reflexivity].
    + intros word Hw. simpl in Hw.
      repeat (destruct Hw as [<- | Hw]; [vm_compute; reflexivity|]). destruct Hw.
Defined.

(** A Reddit comment, 51 upvotes, five words. *)
Definition reddit_51 : Feedback :=
  {| fb_text := Some "works well for my skin";
     fb_source := Some "reddit";
     fb_timestamp := None; fb_username := None;
     fb_score := Some 51%Z;
     fb_permalink := None; fb_authenticity_score := None;
     fb_account_age_days := None; fb_verified_purchase := None;
     fb_subreddit := None; fb_post_title := None; fb_post_score := None;
     fb_video_title := None; fb_channel_name := None; fb_video_views := None;
     fb_timestamp_in_video := None; fb_product_title := None;
     fb_star_rating := None; fb_review_title := None |}.

(** C5 (the code at the failing input). With 51 upvotes the first test
    [upvotes > 10] already holds, so only 0.1 is added to the base 0.5 and
    the branch that adds 0.2 is never taken. *)
Theorem calculate_authenticity_reddit_51 :
  calculate_authenticity reddit_51 == 0.6 /\
  ~ calculate_authenticity reddit_51 == 0.5 + 0.2.
Proof.
  split; [vm_compute; reflexivity | vm_compute; discriminate].
Qed.

(** Thirty-one words and no sentence punctuation. *)
Definition review_31 : string :=
  "this cleanser has been part of my routine for three months and my skin "
  ++ "feels clean but not dry so I would tell anyone with oily skin to try it today".

(** C7 (the code at the failing input). A text of 31 words that is one
    sentence is returned whole by the rule-based summary under a budget of
    30 words. *)
Theorem generate_summary_over_budget :
  word_count review_31 = 31%Z /\
  generate_summary None review_31 30 5 = review_31 /\
  (word_count (generate_summary None review_31 30 5) <=? 30)%Z = false.
Proof. repeat split; vm_compute; reflexivity. Qed.

(** X3. A text within the word budget is returned unchanged, with or
    without a summarizer. *)
Lemma generate_summary_short summarizer text max_length min_length :
  (word_count text <= max_length)%Z ->
  generate_summary summarizer text max_length min_length = text.
Proof.
  intros H. unfold generate_summary.
  apply Z.leb_le in H. rewrite H. reflexivity.
Qed.

(** The authenticity score is clamped to [0.1, 1.0] for every feedback. *)
Theorem calculate_authenticity_clamped (feedback : Feedback) :
  (0.1 <= calculate_authenticity feedback)%Q /\
  (calculate_authenticity feedback <= 1.0)%Q.
Proof.
  unfold calculate_authenticity. split.
  - apply Q.le_max_l.
  - apply Q.max_lub; [unfold Qle; simpl; lia | apply Q.le_min_r].
Qed.

Lemma keyword_confidence_bounds (n : nat) :
  (0 <= Qmin (0.5 + inject_Z (Z.of_nat n) * 0.1) 0.9)%Q /\
  (Qmin (0.5 + inject_Z (Z.of_nat n) * 0.1) 0.9 <= 1)%Q.
Proof.
  split.
  - apply Q.min_glb; [|unfold Qle; simpl; lia].
    assert (H : (0 <= inject_Z (Z.of_nat n))%Q).
    { unfold Qle. simpl. lia. }
    assert (H' : (0 <= inject_Z (Z.of_nat n) * 0.1)%Q).
    { apply Qmult_le_0_compat; [exact H | unfold Qle; simpl; lia]. }
    apply Qle_trans with (0.5 + 0)%Q; [unfold Qle; simpl; lia|].
    apply Qplus_le_r. exact H'.
  - apply Qle_trans with 0.9%Q; [apply Q.le_min_r | unfold Qle; simpl; lia].
Qed.

(** X2. The sentiment label is one of four and the confidence lies in
    [0, 1], for every text. *)
Theorem analyze_sentiment_total (text : string) :
  In (fst (analyze_sentiment text)) ["positive"; "negative"; "neutral"; "mixed"] /\
  (0 <= snd (analyze_sentiment text))%Q /\
  (snd (analyze_sentiment text) <= 1)%Q.
Proof.
  unfold analyze_sentiment.
  repeat match goal with
         | |- context [if ?b then _ else _] => destruct b
         end;
    cbn [fst snd];
    (split; [simpl; tauto|]);
    first [ apply keyword_confidence_bounds
          | split; unfold Qle; simpl; lia ].
Qed.

Lemma generate_summary_short_witness :
  generate_summary None "Works great on my oily skin" 30 5
  = "Works great on my oily skin".
Proof.
  apply (generate_summary_short None "Works great on my oily skin" 30 5).
  vm_compute. discriminate.
Defined.

End ContentAnalyzerFacts.

(** ** trust_atom_creator.py *)

Module TrustAtomCreatorFacts.
Import PyStr Data TrustAtomCreator.

(** C1. The atom's confidence score is 0.7 times the match score of the
    match info (0.1 when the key is absent) plus 0.3 times the sentiment
    confidence. *)
Theorem create_trust_atom_confidence
  (sha256_hexdigest : string -> string) (uuid_hex now : string)
  (feedback : Feedback) (product_id : option string) (match_info : MatchInfo)
  (sentiment_label : string) (sentiment_confidence : Q)
  (tags : list string) (summary : option string) :
  confidence_score
    (create_trust_atom sha256_hexdigest uuid_hex now feedback
       (product_id, match_info) (sentiment_label, sentiment_confidence)
       tags summary)
  == 0.7 * match match_score match_info with
           | Some score => score
           | None => 0.1
           end
     + 0.3 * sentiment_confidence.
Proof.
  unfold create_trust_atom. cbn [confidence_score].
  destruct (match_score match_info) as [score|]; cbn [get]; reflexivity.
Qed.

End TrustAtomCreatorFacts.

(** ** os.path *)

Module PyOsFacts.
Import PyStr PyOs.

Lemma contains_sep_cons c s :
  contains "/" (String c s) = is_sep c || contains "/" s.
Proof.
  cbn [contains]. unfold starts_with, is_sep. cbn [strip_prefix].
  rewrite (Ascii.eqb_sym c "/"). destruct (Ascii.eqb "/" c); reflexivity.
Qed.

Lemma contains_sep_app a b :
  contains "/" (a ++ b) = contains "/" a || contains "/" b.
Proof.
  induction a as [|c a IH]; [reflexivity|].
  change (String c a ++ b) with (String c (a ++ b)).
  rewrite !contains_sep_cons, IH. apply orb_assoc.
Qed.

Lemma through_last_sep_empty p :
  is_empty (through_last_sep p) = negb (contains "/" p).
Proof.
  induction p as [|c p IH]; [reflexivity|].
  rewrite contains_sep_cons. cbn [through_last_sep].
  destruct (through_last_sep p) as [|h head]; cbn [is_empty negb] in *.
  - apply (f_equal negb) in IH. rewrite negb_involutive in IH. cbn in IH.
    rewrite <- IH, orb_false_r. destruct (is_sep c); reflexivity.
  - apply (f_equal negb) in IH. rewrite negb_involutive in IH. cbn in IH.
    rewrite <- IH, orb_true_r. reflexivity.
Qed.

Lemma rstrip_sep_nonempty s :
  all_sep s = false -> is_empty (rstrip_sep s) = false.
Proof.
  induction s as [|c s IH]; cbn [all_sep rstrip_sep]; [discriminate|].
  intros H. destruct (is_sep c); cbn [andb] in *; [|reflexivity].
  rewrite (IH H). reflexivity.
Qed.

(** The directory part of a path is empty exactly when the path has no
    separator. *)
Lemma dirname_empty p : is_empty (dirname p) = negb (contains "/" p).
Proof.
  rewrite <- through_last_sep_empty. unfold dirname, truthy.
  destruct (is_empty (through_last_sep p)) eqn:E; cbn [negb andb]; [exact E|].
  destruct (all_sep (through_last_sep p)) eqn:A; cbn [negb]; [exact E|].
  now apply rstrip_sep_nonempty.
Qed.

Lemma ends_with_sep_contains a : ends_with_sep a = true -> contains "/" a = true.
Proof.
  induction a as [|c a IH]; [discriminate|].
  rewrite contains_sep_cons. cbn [ends_with_sep].
  destruct a as [|d a]; [intros ->; reflexivity|].
  intros H. rewrite (IH H). apply orb_true_r.
Qed.

(** Joining a file name without separator to a directory gives a path with
    a separator exactly when the directory is not empty. *)
Lemma contains_sep_join a b :
  contains "/" b = false ->
  contains "/" (join a b) = negb (is_empty a).
Proof.
  intros Hb. unfold join.
  assert (Hs : starts_with "/" b = false).
  { destruct b as [|c b]; [reflexivity|].
    rewrite contains_sep_cons in Hb. apply orb_false_iff in Hb as [Hc _].
    unfold starts_with, is_sep in *. cbn [strip_prefix].
    rewrite (Ascii.eqb_sym "/" c), Hc. reflexivity. }
  rewrite Hs. destruct a as [|c a]; [cbn; exact Hb|].
  cbn [is_empty orb negb].
  destruct (ends_with_sep (String c a)) eqn:E.
  - rewrite contains_sep_app, (ends_with_sep_contains _ E). reflexivity.
  - rewrite !contains_sep_app. cbn. rewrite orb_true_r. reflexivity.
Qed.

Example dirname_examples :
  dirname "temp_registry.json" = "" /\
  dirname "data/registry/products.json" = "data/registry" /\
  dirname "/products.json" = "/" /\
  dirname "data//products.json" = "data" /\
  join "" "registry_suggestions.json" = "registry_suggestions.json" /\
  join "data/registry" "registry_suggestions.json"
  = "data/registry/registry_suggestions.json" /\
  join "/" "registry_suggestions.json" = "/registry_suggestions.json".
Proof. repeat split; reflexivity. Qed.

End PyOsFacts.

(** ** product_matcher.py *)

Module ProductMatcherFacts.
Import PyStr PyOs PyOsFacts Data ProductMatcher.

(** The registry of the module's own example. *)
Definition cerave : Product :=
  {| canonical_name := Some "CeraVe Foaming Facial Cleanser";
     brand := Some "CeraVe";
     category := Some "skincare";
     product_type := Some "cleanser";
     aliases := Some ["cerave foaming cleanser"; "cerave face wash";
                      "cerave foaming cleanser 12oz"; "cerave cleanser"];
     identifiers := Some [("asin", "B01N1LL62W"); ("upc", "301871239012")] |}.

Definition neutrogena : Product :=
  {| canonical_name := Some "Neutrogena Hydro Boost Water Gel";
     brand := Some "Neutrogena";
     category := Some "skincare";
     product_type := Some "moisturizer";
     aliases := Some ["neutrogena hydro boost"; "hydro boost gel";
                      "neutrogena water gel"];
     identifiers := Some [("asin", "B00AQ4ROX0")] |}.

Definition sample_registry : Registry :=
  [("cerave_foaming_cleanser_12oz", cerave);
   ("neutrogena_hydro_boost", neutrogena)].

(** The canonical name of [product], lowercased, occurs in the text. *)
Definition canonical_in (text_lower : string) (product : Product) : bool :=
  let canonical := lower (get (canonical_name product) "") in
  truthy canonical && contains canonical text_lower.

(** Some alias of [product], lowercased, occurs in the text. *)
Definition alias_in (text_lower : string) (product : Product) : bool :=
  existsb (fun alias => contains (lower alias) text_lower)
          (get (aliases product) []).

(** The first stage stops at [product]. *)
Definition hit (text_lower : string) (product : Product) : bool :=
  canonical_in text_lower product || alias_in text_lower product.

Definition hit_score (text_lower : string) (product : Product) : Q :=
  if canonical_in text_lower product then 0.95%Q else 0.9%Q.

(** A stage result is accepted: a non-empty id and a score over the
    threshold. *)
Definition accepted (result : option string * Q) (threshold : Q) : bool :=
  truthy_id (fst result) && Qgtb (snd result) threshold.

Lemma exact_alias_loop_cons text_lower product_id product rest :
  exact_alias_loop text_lower ((product_id, product) :: rest) =
  if hit text_lower product
  then (Some product_id, hit_score text_lower product)
  else exact_alias_loop text_lower rest.
Proof.
  cbn [exact_alias_loop]. unfold hit, hit_score, alias_in.
  fold (canonical_in text_lower product).
  destruct (canonical_in text_lower product); [reflexivity|].
  cbn [orb].
  destruct (existsb _ _); reflexivity.
Qed.

(** Products that the text does not hit are skipped. *)
Lemma exact_alias_loop_skip text_lower before rest :
  Forall (fun item : string * Product => hit text_lower (snd item) = false) before ->
  exact_alias_loop text_lower (before ++ rest)%list = exact_alias_loop text_lower rest.
Proof.
  induction before as [|[pid p] before IH]; intros H; [reflexivity|].
  inversion H as [|? ? Hp Hb]; subst. cbn [snd] in Hp.
  change (((pid, p) :: before) ++ rest)%list with ((pid, p) :: (before ++ rest))%list.
  rewrite exact_alias_loop_cons, Hp. now apply IH.
Qed.

Lemma exact_alias_loop_first text_lower before product_id product after :
  Forall (fun item : string * Product => hit text_lower (snd item) = false) before ->
  hit text_lower product = true ->
  exact_alias_loop text_lower (before ++ (product_id, product) :: after)%list
  = (Some product_id, hit_score text_lower product).
Proof.
  intros Hb Hp. rewrite exact_alias_loop_skip by exact Hb.
  now rewrite exact_alias_loop_cons, Hp.
Qed.

(** A registry with a hit splits at its first hit. *)
Lemma first_hit_split text_lower (items : Registry) :
  existsb (fun item => hit text_lower (snd item)) items = true ->
  exists before product_id product after,
    items = (before ++ (product_id, product) :: after)%list /\
    Forall (fun item : string * Product => hit text_lower (snd item) = false) before /\
    hit text_lower product = true.
Proof.
  induction items as [|[pid p] items IH]; cbn [existsb snd]; [discriminate|].
  destruct (hit text_lower p) eqn:Hp.
  - intros _. exists [], pid, p, items. repeat split; [constructor | exact Hp].
  - cbn [orb]. intros H. destruct (IH H) as (before & pid' & p' & after & -> & Hb & Hp').
    exists ((pid, p) :: before), pid', p', after. repeat split; [|exact Hp'].
    constructor; [exact Hp | exact Hb].
Qed.

Lemma hit_score_ge text_lower product : (0.9 <= hit_score text_lower product)%Q.
Proof.
  unfold hit_score. destruct (canonical_in text_lower product);
    unfold Qle; simpl; lia.
Qed.

Lemma hit_score_accepted text_lower product :
  Qgtb (hit_score text_lower product) 0.8%Q = true.
Proof. unfold hit_score. destruct (canonical_in text_lower product); reflexivity. Qed.

(** The path of the registry in the pipeline's defaults, and the bare
    file name of the module's own example. *)
Definition default_registry_path : string :=
  "trustlayer_plugin/data/registry/product_registry_detailed.json".

Definition example_registry_path : string := "temp_registry.json".

(** The log path has a directory part exactly when the registry path has
    a separator. *)
Lemma log_dir_empty product_registry_path :
  is_empty (dirname (unmatched_log_path product_registry_path))
  = negb (contains "/" product_registry_path).
Proof.
  unfold unmatched_log_path.
  rewrite dirname_empty, contains_sep_join by reflexivity.
  rewrite dirname_empty. now rewrite negb_involutive.
Qed.

(** [log_unmatched] raises for a registry path without separator, and
    otherwise leaves the former entries followed by the new one. *)
Lemma log_unmatched_cases product_registry_path now log text :
  log_unmatched product_registry_path now log text =
  if contains "/" product_registry_path
  then returned
         (log_entries
            (match log with
             | log_entries entries => entries
             | log_absent | log_unreadable => []
             end
             ++ [ {| mention_text := text; logged_at := now;
                     status := "unprocessed" |} ]))
  else raised FileNotFoundError.
Proof.
  unfold log_unmatched, makedirs. rewrite log_dir_empty.
  destruct (contains "/" product_registry_path); reflexivity.
Qed.

Section Matcher.
Variable fuzzy : string -> string -> Q.
Variable registry : Registry.
Variable product_registry_path : string.
Variable embeddings : bool.
Variable now : string.
Variable log : LogFile.

(** The outcomes of [match_product], by the acceptance of the first two
    stages. *)
Lemma match_product_stages text :
  match_product fuzzy registry product_registry_path embeddings now log text =
  let e := exact_alias_match registry text in
  let f := fuzzy_brand_product_match fuzzy registry text in
  if accepted e 0.8%Q then
    returned
      ((fst e, _create_match_info fuzzy registry "exact_alias" (snd e) text), log)
  else if accepted f 0.6%Q then
    returned
      ((fst f, _create_match_info fuzzy registry "fuzzy_brand_product" (snd f) text),
       log)
  else
    match log_unmatched product_registry_path now log text with
    | raised exception => raised exception
    | returned log' => returned ((None, fallback_info), log')
    end.
Proof.
  cbv zeta. unfold match_product, accepted.
  destruct (exact_alias_match registry text) as [pid1 c1]. cbn [fst snd].
  destruct (truthy_id pid1 && Qgtb c1 0.8); [reflexivity|].
  destruct (fuzzy_brand_product_match fuzzy registry text) as [pid2 c2]. cbn [fst snd].
  destruct (truthy_id pid2 && Qgtb c2 0.6); [reflexivity|].
  unfold semantic_similarity_match. cbn [truthy_id].
  now rewrite andb_false_r.
Qed.

(** When the first stage finds a product with a non-empty id, the matcher
    answers with it and leaves the log alone. *)
Lemma match_product_first_hit text before product_id product after :
  registry = (before ++ (product_id, product) :: after)%list ->
  Forall (fun item : string * Product => hit (lower text) (snd item) = false) before ->
  hit (lower text) product = true ->
  truthy product_id = true ->
  match_product fuzzy registry product_registry_path embeddings now log text =
  returned
    ((Some product_id,
      _create_match_info fuzzy registry "exact_alias"
                         (hit_score (lower text) product) text),
     log).
Proof.
  intros Hreg Hb Hp Hid. unfold match_product, exact_alias_match.
  rewrite Hreg at 1. rewrite (exact_alias_loop_first _ _ _ _ _ Hb Hp).
  cbn [truthy_id]. rewrite Hid, hit_score_accepted. reflexivity.
Qed.

(** When no stage accepts and the registry path has a directory part, the
    matcher returns the fallback and the log holds its former entries
    followed by the new one. *)
Lemma match_product_fallback text :
  accepted (exact_alias_match registry text) 0.8%Q = false ->
  accepted (fuzzy_brand_product_match fuzzy registry text) 0.6%Q = false ->
  contains "/" product_registry_path = true ->
  match_product fuzzy registry product_registry_path embeddings now log text =
  returned
    ((None,
      {| match_method := "fallback";
         match_score := Some 0.1%Q;
         alternative_matches := [];
         context_factors :=
           {| brand_mentioned := false;
              product_type_mentioned := false;
              identifier_mentioned := false |} |}),
     log_entries
       (match log with
        | log_entries entries => entries
        | log_absent | log_unreadable => []
        end
        ++ [ {| mention_text := text; logged_at := now; status := "unprocessed" |} ])).
Proof.
  intros H1 H2 Hdir. rewrite match_product_stages. cbv zeta.
  rewrite H1, H2, log_unmatched_cases, Hdir. reflexivity.
Qed.

(** When no stage accepts and the registry path is a bare file name, the
    matcher raises. *)
Lemma match_product_raises text :
  accepted (exact_alias_match registry text) 0.8%Q = false ->
  accepted (fuzzy_brand_product_match fuzzy registry text) 0.6%Q = false ->
  contains "/" product_registry_path = false ->
  match_product fuzzy registry product_registry_path embeddings now log text =
  raised FileNotFoundError.
Proof.
  intros H1 H2 Hdir. rewrite match_product_stages. cbv zeta.
  rewrite H1, H2, log_unmatched_cases, Hdir. reflexivity.
Qed.

End Matcher.

Lemma accepted_some result threshold :
  accepted result threshold = true ->
  exists product_id,
    fst result = Some product_id /\ truthy product_id = true /\
    Qgtb (snd result) threshold = true.
Proof.
  unfold accepted. intros H. apply andb_true_iff in H as [Hid Hgt].
  destruct (fst result) as [pid|]; [|discriminate].
  exists pid. split; [reflexivity|]. split; [exact Hid | exact Hgt].
Qed.

(** C2 (as stated, refuted). The text contains the canonical name of the
    second product of the registry, and the matcher answers with the first
    product, one of whose aliases occurs earlier in the loop. *)
Lemma match_product_earlier_product_wins :
  let text :=
    "I switched from my cerave cleanser to Neutrogena Hydro Boost Water Gel" in
  let result :=
    match_product Difflib.ratio sample_registry default_registry_path false
                  "2025-06-26T15:30:00" log_absent text in
  In ("neutrogena_hydro_boost", neutrogena) sample_registry /\
  contains (lower "Neutrogena Hydro Boost Water Gel") (lower text) = true /\
  result
  = returned
      ((Some "cerave_foaming_cleanser_12oz",
        _create_match_info Difflib.ratio sample_registry "exact_alias" 0.9%Q text),
       log_absent) /\
  Some "cerave_foaming_cleanser_12oz" <> Some "neutrogena_hydro_boost".
Proof.
  cbv zeta. split; [right; left; reflexivity|].
  split; [vm_compute; reflexivity|].
  split; [vm_compute; reflexivity | discriminate].
Qed.

(** C2 (amended). If the text contains the non-empty canonical name of a
    registered product (case-insensitively), no product earlier in the
    registry has its canonical name or an alias in the text, and the
    product's id is not the empty string, then the matcher returns that id
    with score 0.95 (at least 0.9) and method "exact_alias". *)
Theorem match_product_canonical_name
  (fuzzy : string -> string -> Q) (before after : Registry)
  (product_id : string) (product : Product) (product_registry_path : string)
  (embeddings : bool) (now : string) (log : LogFile) (text : string) :
  let registry := (before ++ (product_id, product) :: after)%list in
  let canonical := lower (get (canonical_name product) "") in
  truthy canonical = true ->
  contains canonical (lower text) = true ->
  Forall (fun item : string * Product => hit (lower text) (snd item) = false) before ->
  truthy product_id = true ->
  exists info score,
    match_product fuzzy registry product_registry_path embeddings now log text
    = returned ((Some product_id, info), log) /\
    match_method info = "exact_alias" /\
    match_score info = Some score /\
    (score == 0.95)%Q /\ (0.9 <= score)%Q.
Proof.
  cbv zeta. intros Hne Hin Hb Hid.
  assert (Hc : canonical_in (lower text) product = true).
  { unfold canonical_in. now rewrite Hne, Hin. }
  assert (Hp : hit (lower text) product = true).
  { unfold hit. now rewrite Hc. }
  exists (_create_match_info fuzzy (before ++ (product_id, product) :: after)%list
            "exact_alias" (hit_score (lower text) product) text),
         (hit_score (lower text) product).
  split.
  { now apply (match_product_first_hit fuzzy _ product_registry_path embeddings now
                 log text before product_id product after). }
  split; [reflexivity|]. split; [reflexivity|].
  split; [unfold hit_score; rewrite Hc; reflexivity | apply hit_score_ge].
Qed.

Lemma match_product_canonical_name_witness :
  exists info score,
    match_product Difflib.ratio sample_registry default_registry_path false
      "2025-06-26T15:30:00" log_absent
      "I love the CeraVe Foaming Facial Cleanser for my oily skin"
    = returned ((Some "cerave_foaming_cleanser_12oz", info), log_absent) /\
    match_method info = "exact_alias" /\
    match_score info = Some score /\
    (score == 0.95)%Q /\ (0.9 <= score)%Q.
Proof.
  apply (match_product_canonical_name Difflib.ratio []
           [("neutrogena_hydro_boost", neutrogena)]
           "cerave_foaming_cleanser_12oz" cerave default_registry_path false
           "2025-06-26T15:30:00" log_absent
           "I love the CeraVe Foaming Facial Cleanser for my oily skin").
  - reflexivity.
  - vm_compute. reflexivity.
  - constructor.
  - reflexivity.
Defined.

(** C3 (the code at the failing input). The matcher of the module's own
    example is built on the bare file name "temp_registry.json"; its log
    path has no directory part, so for the example's third text, which no
    stage accepts, [log_unmatched] raises when it makes the directory and
    [match_product] returns nothing and logs nothing. *)
Theorem match_product_fallback_raises :
  let text := "I prefer using natural oils for my skin" in
  accepted (exact_alias_match sample_registry text) 0.8%Q = false /\
  accepted (fuzzy_brand_product_match Difflib.ratio sample_registry text) 0.6%Q
  = false /\
  unmatched_log_path example_registry_path = "registry_suggestions.json" /\
  dirname (unmatched_log_path example_registry_path) = "" /\
  match_product Difflib.ratio sample_registry example_registry_path false
    "2025-06-26T15:30:00" log_absent text
  = raised FileNotFoundError.
Proof. cbv zeta. repeat split; vm_compute; reflexivity. Qed.

(** With a registry path that has a directory part, the same text gets the
    fallback and one log entry. *)
Example match_product_fallback_logged :
  match_product Difflib.ratio sample_registry default_registry_path false
    "2025-06-26T15:30:00" (log_entries [])
    "I prefer using natural oils for my skin" =
  returned
    ((None,
      {| match_method := "fallback";
         match_score := Some 0.1%Q;
         alternative_matches := [];
         context_factors :=
           {| brand_mentioned := false;
              product_type_mentioned := false;
              identifier_mentioned := false |} |}),
     log_entries
       [ {| mention_text := "I prefer using natural oils for my skin";
            logged_at := "2025-06-26T15:30:00"; status := "unprocessed" |} ]).
Proof. vm_compute. reflexivity. Qed.

Lemma empty_alias_hits text_lower product :
  In "" (get (aliases product) []) -> hit text_lower product = true.
Proof.
  intros H. unfold hit, alias_in.
  assert (E : existsb (fun alias => contains (lower alias) text_lower)
                      (get (aliases product) []) = true).
  { apply existsb_exists. exists "". split; [exact H|].
    destruct text_lower; reflexivity. }
  rewrite E. apply orb_true_r.
Qed.

(** C10 (as stated, refuted). A product with an empty alias whose canonical
    name occurs in the text is returned with score 0.95, not 0.9. *)
Lemma empty_alias_score_not_always_09 :
  let product :=
    {| canonical_name := Some "CeraVe"; brand := None; category := None;
       product_type := None; aliases := Some [""]; identifiers := None |} in
  In "" (get (aliases product) []) /\
  exact_alias_match [("cerave", product)] "my cerave" = (Some "cerave", 0.95%Q) /\
  ~ (snd (exact_alias_match [("cerave", product)] "my cerave") == 0.9)%Q.
Proof.
  cbv zeta. split; [left; reflexivity|].
  split; [vm_compute; reflexivity | vm_compute; discriminate].
Qed.

(** C10 (amended). If some product of the registry has the empty string
    among its aliases, then for every text, the empty one included, the
    exact-alias stage returns a product: the first of the registry whose
    canonical name or an alias occurs in the text.  Its score is 0.95 when
    the canonical name of that product is not empty and occurs in the
    lowercased text, and 0.9 otherwise; and when its id is not the empty
    string, the matcher answers through the exact-alias stage with that id
    and score and leaves the unresolved-mention log as it was. *)
Theorem empty_alias_always_matches
  (fuzzy : string -> string -> Q) (registry : Registry)
  (holder_id : string) (holder : Product) (product_registry_path : string)
  (embeddings : bool) (now : string) (log : LogFile) (text : string) :
  In (holder_id, holder) registry ->
  In "" (get (aliases holder) []) ->
  exists before product_id product after score,
    registry = (before ++ (product_id, product) :: after)%list /\
    Forall (fun item : string * Product => hit (lower text) (snd item) = false) before /\
    hit (lower text) product = true /\
    exact_alias_match registry text = (Some product_id, score) /\
    score
    = (if truthy (lower (get (canonical_name product) ""))
          && contains (lower (get (canonical_name product) "")) (lower text)
       then 0.95%Q else 0.9%Q) /\
    (truthy product_id = true ->
     exists info,
       match_product fuzzy registry product_registry_path embeddings now log text
       = returned ((Some product_id, info), log) /\
       match_method info = "exact_alias" /\
       match_score info = Some score).
Proof.
  intros Hin Hal.
  assert (Hex : existsb (fun item : string * Product => hit (lower text) (snd item))
                        registry = true).
  { apply existsb_exists. exists (holder_id, holder).
    split; [exact Hin | now apply empty_alias_hits]. }
  destruct (first_hit_split _ _ Hex) as (before & pid & p & after & Hreg & Hb & Hp).
  exists before, pid, p, after, (hit_score (lower text) p).
  split; [exact Hreg|]. split; [exact Hb|]. split; [exact Hp|]. split.
  - unfold exact_alias_match. rewrite Hreg. now apply exact_alias_loop_first.
  - split; [reflexivity|].
    intros Hid. eexists. split.
    + now apply (match_product_first_hit fuzzy registry product_registry_path
                   embeddings now log text before pid p after).
    + split; reflexivity.
Qed.

Lemma empty_alias_always_matches_witness :
  let registry :=
    [("any", {| canonical_name := Some "CeraVe"; brand := None;
                category := None; product_type := None;
                aliases := Some [""]; identifiers := None |})] in
  exists before product_id product after score,
    registry = (before ++ (product_id, product) :: after)%list /\
    Forall (fun item : string * Product => hit (lower "") (snd item) = false) before /\
    hit (lower "") product = true /\
    exact_alias_match registry "" = (Some product_id, score) /\
    score
    = (if truthy (lower (get (canonical_name product) ""))
          && contains (lower (get (canonical_name product) "")) (lower "")
       then 0.95%Q else 0.9%Q) /\
    (truthy product_id = true ->
     exists info,
       match_product Difflib.ratio registry default_registry_path false
         "2025-06-26T15:30:00" log_absent ""
       = returned ((Some product_id, info), log_absent) /\
       match_method info = "exact_alias" /\
       match_score info = Some score).
Proof.
  cbv zeta.
  apply (empty_alias_always_matches Difflib.ratio _ "any"
           {| canonical_name := Some "CeraVe"; brand := None;
              category := None; product_type := None;
              aliases := Some [""]; identifiers := None |}).
  - left. reflexivity.
  - left. reflexivity.
Defined.

(** The empty alias decides the score when the canonical name is absent
    from the text: 0.9 for the empty text, 0.95 once the name occurs. *)
Example empty_alias_scores :
  let registry :=
    [("any", {| canonical_name := Some "CeraVe"; brand := None;
                category := None; product_type := None;
                aliases := Some [""]; identifiers := None |})] in
  exact_alias_match registry "" = (Some "any", 0.9%Q) /\
  exact_alias_match registry "no such thing" = (Some "any", 0.9%Q) /\
  exact_alias_match registry "my cerave" = (Some "any", 0.95%Q).
Proof. cbv zeta. repeat split; vm_compute; reflexivity. Qed.

(** *** Alternatives and context factors *)

(** Larger scores first. *)
Definition desc (x y : string * Q) : Prop := (snd y <= snd x)%Q.

Definition alt_desc (x y : Alternative) : Prop := (alt_score y <= alt_score x)%Q.

Lemma Qgtb_true x y : Qgtb x y = true -> (y <= x)%Q.
Proof.
  unfold Qgtb. intros H. apply negb_true_iff in H.
  destruct (Qlt_le_dec y x) as [Hlt | Hle]; [now apply Qlt_le_weak|].
  apply Qle_bool_iff in Hle. congruence.
Qed.

Lemma Qgtb_false x y : Qgtb x y = false -> (x <= y)%Q.
Proof.
  unfold Qgtb. intros H. apply negb_false_iff in H. now apply Qle_bool_iff.
Qed.

Lemma insert_desc_Forall (P : string * Q -> Prop) x l :
  P x -> Forall P l -> Forall P (insert_desc x l).
Proof.
  intros Hx Hl. induction Hl as [|y l Hy Hl IH]; cbn [insert_desc].
  - constructor; [exact Hx | constructor].
  - destruct (Qgtb (snd y) (snd x)).
    + constructor; [exact Hy | exact IH].
    + constructor; [exact Hx | constructor; assumption].
Qed.

Lemma insert_desc_sorted x l :
  StronglySorted desc l -> StronglySorted desc (insert_desc x l).
Proof.
  induction 1 as [|y l Hs IH Hy]; cbn [insert_desc].
  - constructor; constructor.
  - destruct (Qgtb (snd y) (snd x)) eqn:E.
    + constructor; [exact IH|].
      apply insert_desc_Forall; [|exact Hy].
      unfold desc. now apply Qgtb_true.
    + apply Qgtb_false in E.
      constructor; [constructor; assumption|].
      constructor; [exact E|].
      eapply List.Forall_impl; [|exact Hy].
      intros z Hz. unfold desc in *. now apply Qle_trans with (snd y).
Qed.

Lemma sort_desc_sorted l : StronglySorted desc (sort_desc l).
Proof.
  induction l as [|x l IH]; cbn [sort_desc fold_right]; [constructor|].
  now apply insert_desc_sorted.
Qed.

Lemma insert_desc_In x l z : In z (insert_desc x l) <-> z = x \/ In z l.
Proof.
  induction l as [|y l IH]; cbn [insert_desc].
  - simpl. intuition congruence.
  - destruct (Qgtb (snd y) (snd x)); simpl; [rewrite IH|]; intuition congruence.
Qed.

Lemma sort_desc_In l z : In z (sort_desc l) <-> In z l.
Proof.
  induction l as [|x l IH]; cbn [sort_desc fold_right]; [reflexivity|].
  fold (sort_desc l). rewrite insert_desc_In, IH. simpl. intuition congruence.
Qed.

Lemma insert_desc_perm x l : Permutation (insert_desc x l) (x :: l).
Proof.
  induction l as [|y l IH]; cbn [insert_desc]; [reflexivity|].
  destruct (Qgtb (snd y) (snd x)); [|reflexivity].
  rewrite IH. apply perm_swap.
Qed.

Lemma sort_desc_perm l : Permutation (sort_desc l) l.
Proof.
  induction l as [|x l IH]; cbn [sort_desc fold_right]; [reflexivity|].
  fold (sort_desc l). rewrite insert_desc_perm. now constructor.
Qed.

(** The candidates with a given score. *)
Definition scoring (score : Q) (l : list (string * Q)) : list (string * Q) :=
  List.filter (fun m : string * Q => Qeq_bool (snd m) score) l.

(** The sort is stable: candidates of equal score keep their order. *)
Lemma insert_desc_stable score x l :
  scoring score (insert_desc x l) = scoring score (x :: l).
Proof.
  induction l as [|y l IH]; cbn [insert_desc]; [reflexivity|].
  destruct (Qgtb (snd y) (snd x)) eqn:E; [|reflexivity].
  unfold scoring in *. cbn [List.filter] in *. rewrite IH.
  destruct (Qeq_bool (snd y) score) eqn:Ey; [|reflexivity].
  destruct (Qeq_bool (snd x) score) eqn:Ex; [|reflexivity].
  exfalso. apply Qeq_bool_iff in Ey, Ex.
  unfold Qgtb in E. apply negb_true_iff in E.
  assert (H : (snd y <= snd x)%Q) by (rewrite Ey, Ex; apply Qle_refl).
  apply Qle_bool_iff in H. congruence.
Qed.

Lemma sort_desc_stable score l : scoring score (sort_desc l) = scoring score l.
Proof.
  induction l as [|x l IH]; cbn [sort_desc fold_right]; [reflexivity|].
  fold (sort_desc l). rewrite insert_desc_stable.
  unfold scoring in *. cbn [List.filter]. now rewrite IH.
Qed.

Lemma sorted_skipn {A} (R : A -> A -> Prop) n l :
  StronglySorted R l -> StronglySorted R (skipn n l).
Proof.
  revert l. induction n as [|n IH]; intros l H; [exact H|].
  destruct l as [|x l]; [constructor|].
  apply IH. now inversion H.
Qed.

Lemma sorted_firstn {A} (R : A -> A -> Prop) n l :
  StronglySorted R l -> StronglySorted R (firstn n l).
Proof.
  revert l. induction n as [|n IH]; intros l H; [constructor|].
  destruct l as [|x l]; [constructor|].
  inversion H as [|? ? Hs Hx]; subst. cbn [firstn].
  constructor; [now apply IH|].
  apply List.Forall_forall. intros z Hz.
  rewrite List.Forall_forall in Hx. apply Hx.
  rewrite <- (firstn_skipn n l). apply in_or_app. now left.
Qed.

Lemma sorted_map {A B} (R : A -> A -> Prop) (R' : B -> B -> Prop) (f : A -> B) l :
  (forall x y, R x y -> R' (f x) (f y)) ->
  StronglySorted R l -> StronglySorted R' (List.map f l).
Proof.
  intros Hf. induction 1 as [|x l Hs IH Hx]; cbn [List.map]; constructor.
  - exact IH.
  - apply List.Forall_forall. intros z Hz. apply in_map_iff in Hz as (y & <- & Hy).
    apply Hf. rewrite List.Forall_forall in Hx. now apply Hx.
Qed.

Lemma any_brand_in_spec (registry : Registry) text :
  any_brand_in registry text = true <->
  exists product_id product,
    In (product_id, product) registry /\
    truthy (lower (get (brand product) "")) = true /\
    contains (lower (get (brand product) "")) (lower text) = true.
Proof.
  unfold any_brand_in. rewrite existsb_exists. split.
  - intros ([pid p] & Hin & H). apply andb_true_iff in H. exists pid, p. tauto.
  - intros (pid & p & Hin & H1 & H2). exists (pid, p). cbn [snd].
    rewrite H1, H2. tauto.
Qed.

Lemma any_type_in_spec (registry : Registry) text :
  any_type_in registry text = true <->
  exists product_id product,
    In (product_id, product) registry /\
    truthy (lower (get (product_type product) "")) = true /\
    contains (lower (get (product_type product) "")) (lower text) = true.
Proof.
  unfold any_type_in. rewrite existsb_exists. split.
  - intros ([pid p] & Hin & H). apply andb_true_iff in H. exists pid, p. tauto.
  - intros (pid & p & Hin & H1 & H2). exists (pid, p). cbn [snd].
    rewrite H1, H2. tauto.
Qed.

Lemma any_identifier_in_spec (registry : Registry) text :
  any_identifier_in registry text = true <->
  exists product_id product id_type id_value,
    In (product_id, product) registry /\
    In (id_type, id_value) (get (identifiers product) []) /\
    truthy id_value = true /\ contains id_value text = true.
Proof.
  unfold any_identifier_in. rewrite existsb_exists. split.
  - intros ([pid p] & Hin & H). apply existsb_exists in H as ([ty v] & Hid & H).
    apply andb_true_iff in H. exists pid, p, ty, v. tauto.
  - intros (pid & p & ty & v & Hin & Hid & H1 & H2). exists (pid, p).
    split; [exact Hin|]. apply existsb_exists. exists (ty, v). cbn [snd].
    rewrite H1, H2. tauto.
Qed.

Section Computed.
Variable fuzzy : string -> string -> Q.
Variable registry : Registry.

(** At most [limit] alternatives. *)
Lemma alternatives_length text limit :
  (List.length (_get_alternative_matches fuzzy registry text limit) <= limit)%nat.
Proof.
  unfold _get_alternative_matches.
  rewrite length_map. apply firstn_le_length.
Qed.

(** The alternatives come by descending score. *)
Lemma alternatives_sorted text limit :
  StronglySorted alt_desc (_get_alternative_matches fuzzy registry text limit).
Proof.
  unfold _get_alternative_matches.
  apply (sorted_map desc); [intros x y H; exact H|].
  apply sorted_firstn, sorted_skipn, sort_desc_sorted.
Qed.

(** Every alternative is a product of the registry with the fuzzy score of
    its canonical name against the text. *)
Lemma alternatives_from_registry text limit alt :
  In alt (_get_alternative_matches fuzzy registry text limit) ->
  exists product,
    In (alt_product_id alt, product) registry /\
    alt_score alt
    = fuzzy (lower (get (canonical_name product) "")) (lower text).
Proof.
  unfold _get_alternative_matches. intros H.
  apply in_map_iff in H as ([pid score] & <- & H). cbn [alt_product_id alt_score fst snd].
  assert (H' : In (pid, score) (skipn 1 (sort_desc
            (List.map (fun item : string * Product =>
               (fst item,
                fuzzy (lower (get (canonical_name (snd item)) "")) (lower text)))
               registry)))).
  { rewrite <- (firstn_skipn limit (skipn 1 _)). apply in_or_app. now left. }
  assert (H'' : In (pid, score) (sort_desc
            (List.map (fun item : string * Product =>
               (fst item,
                fuzzy (lower (get (canonical_name (snd item)) "")) (lower text)))
               registry))).
  { rewrite <- (firstn_skipn 1 (sort_desc _)). apply in_or_app. now right. }
  apply (proj1 (sort_desc_In _ _)) in H''. apply in_map_iff in H'' as ([pid' p] & E & Hin).
  cbn [fst snd] in E. inversion E; subst. exists p. split; [exact Hin | reflexivity].
Qed.

(** The alternatives are the candidates ranked second to fourth: every
    registry product is scored against the text, the candidates are put by
    descending score with those of equal score in registry order, the
    first is dropped and the next [limit] are kept. *)
Lemma alternatives_ranked text limit :
  let candidates :=
    List.map
      (fun item : string * Product =>
         (fst item, fuzzy (lower (get (canonical_name (snd item)) "")) (lower text)))
      registry in
  exists ranked,
    Permutation ranked candidates /\
    StronglySorted desc ranked /\
    (forall score, scoring score ranked = scoring score candidates) /\
    _get_alternative_matches fuzzy registry text limit
    = List.map (fun m : string * Q => {| alt_product_id := fst m; alt_score := snd m |})
               (firstn limit (skipn 1 ranked)).
Proof.
  cbv zeta. eexists. split; [apply sort_desc_perm|].
  split; [apply sort_desc_sorted|].
  split; [intros score; apply sort_desc_stable | reflexivity].
Qed.

(** The matcher answers either with an accepted product and a computed
    match info, or goes on to log the text and answer with the fallback. *)
Lemma match_product_cases product_registry_path embeddings now log text :
  let result :=
    match_product fuzzy registry product_registry_path embeddings now log text in
  (exists product_id method score,
     result
     = returned
         ((Some product_id, _create_match_info fuzzy registry method score text), log)
     /\ (method = "exact_alias" \/ method = "fuzzy_brand_product"))
  \/ (accepted (exact_alias_match registry text) 0.8%Q = false /\
      accepted (fuzzy_brand_product_match fuzzy registry text) 0.6%Q = false /\
      result
      = match log_unmatched product_registry_path now log text with
        | raised exception => raised exception
        | returned log' => returned ((None, fallback_info), log')
        end).
Proof.
  cbv zeta. rewrite match_product_stages. cbv zeta.
  destruct (accepted (exact_alias_match registry text) 0.8) eqn:E1.
  { apply accepted_some in E1 as (pid & Hpid & _ & _). rewrite Hpid.
    left. exists pid, "exact_alias", (snd (exact_alias_match registry text)).
    split; [reflexivity | now left]. }
  destruct (accepted (fuzzy_brand_product_match fuzzy registry text) 0.6) eqn:E2.
  { apply accepted_some in E2 as (pid & Hpid & _ & _). rewrite Hpid.
    left. exists pid, "fuzzy_brand_product",
            (snd (fuzzy_brand_product_match fuzzy registry text)).
    split; [reflexivity | now right]. }
  right. repeat split.
Qed.

End Computed.



Example match_info_exact :
  exists info,
    match_product Difflib.ratio sample_registry default_registry_path false
      "2025-06-26T15:30:00" log_absent
      "I love the CeraVe Foaming Facial Cleanser for my oily skin"
    = returned ((Some "cerave_foaming_cleanser_12oz", info), log_absent) /\
    context_factors info =
      {| brand_mentioned := true; product_type_mentioned := true;
         identifier_mentioned := false |} /\
    List.map alt_product_id (alternative_matches info) = ["neutrogena_hydro_boost"].
Proof.
  eexists. split; [vm_compute; reflexivity|]. split; vm_compute; reflexivity.
Qed.

(** The alternatives leave out the top fuzzy candidate, which need not be
    the product returned: here the first stage returns the first product on
    an alias while the second product scores higher on its canonical name,
    so the only alternative is the product returned. *)
Example alternatives_skip_top_candidate :
  exists info,
    match_product Difflib.ratio sample_registry default_registry_path false
      "2025-06-26T15:30:00" log_absent
      "cerave cleanser or neutrogena hydro boost water"
    = returned ((Some "cerave_foaming_cleanser_12oz", info), log_absent) /\
    List.map alt_product_id (alternative_matches info)
    = ["cerave_foaming_cleanser_12oz"].
Proof.
  eexists. split; [vm_compute; reflexivity|]. vm_compute. reflexivity.
Qed.

(** X4. With an empty registry, which is what a failed load leaves, no
    text is matched: when the registry path has a directory part the call
    returns no product with the fallback info and the log holds its former
    entries (none when it was absent or unparseable) followed by one
    unprocessed entry for the text; when the path is a bare file name the
    call raises [FileNotFoundError]. *)
Theorem match_product_empty_registry
  (fuzzy : string -> string -> Q) (product_registry_path : string)
  (embeddings : bool) (now : string) (log : LogFile) (text : string) :
  match_product fuzzy [] product_registry_path embeddings now log text =
  if contains "/" product_registry_path
  then
    returned
      ((None,
        {| match_method := "fallback";
           match_score := Some 0.1%Q;
           alternative_matches := [];
           context_factors :=
             {| brand_mentioned := false;
                product_type_mentioned := false;
                identifier_mentioned := false |} |}),
       log_entries
         (match log with
          | log_entries entries => entries
          | log_absent | log_unreadable => []
          end
          ++ [ {| mention_text := text; logged_at := now;
                  status := "unprocessed" |} ]))
  else raised FileNotFoundError.
Proof.
  rewrite match_product_stages. cbv zeta.
  unfold exact_alias_match, fuzzy_brand_product_match, mentioned_brands, accepted.
  cbn [exact_alias_loop flat_map fuzzy_loop truthy_id fst snd andb].
  rewrite log_unmatched_cases.
  destruct (contains "/" product_registry_path); reflexivity.
Qed.

End ProductMatcherFacts.

(** ** storage.py *)

Module StorageFacts.
Import PyStr Data Storage.

Section Facts.
Context {Atom : Type}.
Variable get_product_id : Atom -> option string.
Variable get_source : Atom -> option string.

#[local] Abbreviation store_all := (store_all get_product_id get_source).
#[local] Abbreviation store_each := (store_each get_product_id get_source).

(** The product collection after one [store_all]. *)
Lemma store_all_trust_atoms (st : Store Atom) trust_atom :
  trust_atoms (fst (store_all st trust_atom)) =
  fst (_store_in_file trust_atom (get (get_product_id trust_atom) "unknown")
                      (trust_atoms st)).
Proof.
  unfold Storage.store_all, store_by_category, store_by_source, store_as_trust_atom.
  destruct (_store_in_file trust_atom _ (categories st)) as [d1 r1].
  cbn [sources trust_atoms categories].
  destruct (_store_in_file trust_atom _ (sources st)) as [d2 r2].
  cbn [sources trust_atoms categories].
  destruct (_store_in_file trust_atom _ (trust_atoms st)) as [d3 r3].
  reflexivity.
Qed.

(** Storing into a readable product collection appends to it. *)
Lemma store_each_append batch : forall (st : Store Atom) product_id stored,
  Forall (fun atom => get_product_id atom = Some product_id) batch ->
  trust_atoms st !! product_id = Some (atoms_of stored) ->
  trust_atoms (store_each st batch) !! product_id
  = Some (atoms_of (stored ++ batch)).
Proof.
  induction batch as [|atom batch IH]; intros st pid stored Hall Hst.
  - cbn [Storage.store_each]. now rewrite app_nil_r.
  - inversion Hall as [|? ? Hatom Hrest]; subst.
    cbn [Storage.store_each].
    rewrite (IH _ pid (stored ++ [atom])%list Hrest).
    + now rewrite <- app_assoc.
    + rewrite store_all_trust_atoms, Hatom. cbn [get].
      unfold _store_in_file. rewrite Hst. cbn [fst].
      apply lookup_insert_eq.
Qed.

(** Storing into an absent product collection creates it. *)
Lemma store_each_create atom batch (st : Store Atom) product_id :
  Forall (fun atom => get_product_id atom = Some product_id) (atom :: batch) ->
  trust_atoms st !! product_id = None ->
  trust_atoms (store_each st (atom :: batch)) !! product_id
  = Some (atoms_of (atom :: batch)).
Proof.
  intros Hall Hst. inversion Hall as [|? ? Hatom Hrest]; subst.
  cbn [Storage.store_each].
  apply (store_each_append batch _ product_id [atom] Hrest).
  rewrite store_all_trust_atoms, Hatom. cbn [get].
  unfold _store_in_file. rewrite Hst. cbn [fst].
  apply lookup_insert_eq.
Qed.

(** No category file holds an atom of [product_id]. *)
Definition no_category_atoms (st : Store Atom) (product_id : string) : Prop :=
  forall name atoms atom,
    categories st !! name = Some (atoms_of atoms) ->
    In atom atoms -> get_product_id atom <> Some product_id.

Lemma filter_none {A} (p : A -> bool) l :
  (forall x, In x l -> p x = false) -> List.filter p l = [].
Proof.
  induction l as [|x l IH]; intros H; [reflexivity|].
  cbn [List.filter]. rewrite (H x) by (left; reflexivity).
  apply IH. intros y Hy. apply H. now right.
Qed.

Lemma scan_empty (st : Store Atom) product_id :
  no_category_atoms st product_id ->
  flat_map (fun entry : string * JsonFile Atom =>
              product_atoms get_product_id product_id (snd entry))
           (map_to_list (categories st)) = [].
Proof.
  intros Hno.
  assert (H : forall entry, In entry (map_to_list (categories st)) ->
                product_atoms get_product_id product_id (snd entry) = []).
  { intros [name file] Hin. apply list_elem_of_In, elem_of_map_to_list in Hin.
    cbn [snd]. destruct file as [|atoms]; [reflexivity|].
    cbn [product_atoms]. apply filter_none. intros atom Hatom.
    apply bool_decide_eq_false. now apply (Hno name atoms). }
  induction (map_to_list (categories st)) as [|entry l IH]; [reflexivity|].
  cbn [flat_map]. rewrite (H entry) by (left; reflexivity).
  apply IH. intros e He. apply H. now right.
Qed.

End Facts.


(** Two atoms of one product, with the keys the storage reads. *)
Definition sample_atom (suffix : string) : TrustAtom :=
  {| atom_id := "reddit_cerave_foaming_cleanser_" ++ suffix;
     product_id := "cerave_foaming_cleanser_12oz";
     source := "reddit";
     timestamp := "2025-06-26T15:30:00Z";
     feedback_text := "I love the CeraVe cleanser! It works great on my oily skin.";
     summary_text := "Works great on oily skin.";
     sentiment_label := "positive";
     authenticity_score := 0.85;
     confidence_score := 0.9;
     tags := ["skincare"; "cleanser"; "oily"];
     metadata :=
       {| username_hash := "sha256:1234567890abcdef";
          upvotes := 10;
          permalink := "https://www.reddit.com/r/SkincareAddiction/comments/example/" |};
     product_match_info :=
       {| match_method := "exact_alias";
          match_score := Some 0.9%Q;
          alternative_matches := [];
          context_factors :=
            {| brand_mentioned := true;
               product_type_mentioned := true;
               identifier_mentioned := false |} |};
     source_specific_data :=
       reddit_data "SkincareAddiction" "Favorite Cleansers" 100 |}.

Definition empty_store : Store TrustAtom :=
  {| categories := ∅; sources := ∅; trust_atoms := ∅ |}.


(** The fan-out of one call: the atom lands in its category, source and
    product collections. *)
Example store_all_fan_out :
  let st := fst (store_all (fun atom => Some (product_id atom))
                           (fun atom => Some (source atom))
                           empty_store (sample_atom "12345")) in
  categories st !! "skincare" = Some (atoms_of [sample_atom "12345"]) /\
  sources st !! "reddit" = Some (atoms_of [sample_atom "12345"]) /\
  trust_atoms st !! "cerave_foaming_cleanser_12oz"
    = Some (atoms_of [sample_atom "12345"]).
Proof. cbv zeta. repeat split; vm_compute; reflexivity. Qed.

End StorageFacts.

(** ** Further properties of content_analyzer.py *)

Module ContentAnalyzerMore.
Import PyStr PyStrFacts Data Preprocessor PreprocessorFacts ContentAnalyzer
       ContentAnalyzerFacts.

Lemma lower_char_idempotent c : lower_char (lower_char c) = lower_char c.
Proof. ascii_cases c; vm_compute; reflexivity. Qed.

Lemma lower_idempotent s : lower (lower s) = lower s.
Proof.
  induction s as [|c s IH]; [reflexivity|].
  cbn [lower]. now rewrite lower_char_idempotent, IH.
Qed.

(** X5. The sentiment of a text does not depend on letter case. *)
Theorem analyze_sentiment_case_insensitive (text : string) :
  analyze_sentiment (lower text) = analyze_sentiment text.
Proof.
  unfold analyze_sentiment. now rewrite lower_idempotent.
Qed.

(** Some keyword of the list occurs in the lowercased text. *)
Definition mentions (keywords : list string) (text : string) : Prop :=
  exists word, In word keywords /\ contains word (lower text) = true.

Lemma count_in_pos_iff keywords s :
  (0 <? count_in keywords s)%nat = true <->
  exists word, In word keywords /\ contains word s = true.
Proof.
  split; [|apply count_in_pos].
  unfold count_in. intros H.
  destruct (List.filter (fun w => contains w s) keywords) as [|w l] eqn:E;
    [discriminate|].
  assert (Hw : In w (List.filter (fun w => contains w s) keywords))
    by (rewrite E; left; reflexivity).
  apply filter_In in Hw. now exists w.
Qed.

Lemma count_in_zero_iff keywords s :
  (count_in keywords s =? 0)%nat = true <->
  ~ exists word, In word keywords /\ contains word s = true.
Proof.
  rewrite <- count_in_pos_iff.
  destruct (count_in keywords s); cbn; split; intros H; congruence.
Qed.

(** X6. The label is decided by which keyword classes occur: "positive"
    when only positive keywords occur, "negative" when only negative ones,
    "mixed" when both, "neutral" when neither. *)
Theorem analyze_sentiment_label (text : string) :
  let label := fst (analyze_sentiment text) in
  let pos := mentions positive_keywords text in
  let neg := mentions negative_keywords text in
  (label = "positive" <-> pos /\ ~ neg) /\
  (label = "negative" <-> neg /\ ~ pos) /\
  (label = "mixed" <-> pos /\ neg) /\
  (label = "neutral" <-> ~ pos /\ ~ neg).
Proof.
  cbv zeta. unfold mentions, analyze_sentiment.
  pose proof (count_in_pos_iff positive_keywords (lower text)) as Hp.
  pose proof (count_in_pos_iff negative_keywords (lower text)) as Hn.
  pose proof (count_in_zero_iff positive_keywords (lower text)) as Hp0.
  pose proof (count_in_zero_iff negative_keywords (lower text)) as Hn0.
  destruct (0 <? count_in positive_keywords (lower text))%nat eqn:Ep;
  destruct (0 <? count_in negative_keywords (lower text))%nat eqn:En;
  destruct (count_in positive_keywords (lower text) =? 0)%nat eqn:Ep0;
  destruct (count_in negative_keywords (lower text) =? 0)%nat eqn:En0;
  cbn [andb];
  repeat match goal with
         | |- context [if ?b then _ else _] => destruct b
         end;
  cbn [fst];
  repeat split; intros; try discriminate; try tauto;
  try (exfalso; intuition congruence).
Qed.

(** X7. The authenticity score is at least 0.4 and at most 1.0 for every
    feedback: the penalties and bonuses never reach the clamp at 0.1. *)
Theorem calculate_authenticity_range (feedback : Feedback) :
  (0.4 <= calculate_authenticity feedback)%Q /\
  (calculate_authenticity feedback <= 1.0)%Q.
Proof.
  unfold calculate_authenticity.
  repeat match goal with
         | |- context [if ?b then _ else _] => destruct b
         end;
  split; unfold Qle; vm_compute; discriminate.
Qed.

Lemma fine_not_stop c : fine c = true -> is_stop c = false.
Proof. ascii_cases c; vm_compute; congruence. Qed.

Lemma append_nil_r (s : string) : s ++ "" = s.
Proof. induction s as [|c s IH]; simpl; [reflexivity | now rewrite IH]. Qed.

Lemma append_assoc (a b c : string) : (a ++ b) ++ c = a ++ (b ++ c).
Proof. induction a as [|x a IH]; simpl; [reflexivity | now rewrite IH]. Qed.

(** A text without sentence punctuation is one sentence. *)
Lemma re_split_no_stop k : forall cur s,
  all_chars (fun c => negb (is_stop c)) s = true ->
  re_split_steps sentence_end_at k cur s = [cur ++ s].
Proof.
  induction k as [|k IH]; intros cur s H; [reflexivity|].
  destruct s as [|c s]; cbn [re_split_steps].
  - now rewrite append_nil_r.
  - cbn [all_chars] in H. apply andb_true_iff in H as [Hc Hs].
    apply negb_true_iff in Hc. unfold sentence_end_at. rewrite Hc.
    rewrite (IH _ _ Hs), append_assoc. reflexivity.
Qed.

Lemma all_chars_impl (p q : ascii -> bool) s :
  (forall c, p c = true -> q c = true) ->
  all_chars p s = true -> all_chars q s = true.
Proof.
  intros Hpq. induction s as [|c s IH]; cbn [all_chars]; [easy|].
  intros H. apply andb_true_iff in H as [Hc Hs].
  now rewrite (Hpq _ Hc), IH.
Qed.

Lemma rule_based_summary_one_sentence text max_length :
  all_chars (fun c => negb (is_stop c)) text = true ->
  _rule_based_summary text max_length = text.
Proof.
  intros H. unfold _rule_based_summary, re_split.
  rewrite (re_split_no_stop _ _ _ H). cbn [String.append List.filter].
  destruct (3 <? word_count text)%Z; reflexivity.
Qed.

(** A text in clean form has no sentence punctuation to split on. *)
Lemma summary_of_clean_form (s : string) (max_length min_length : Z) :
  clean_form s = true ->
  generate_summary None s max_length min_length = s.
Proof.
  intros H. unfold generate_summary.
  destruct (word_count s <=? max_length)%Z; [reflexivity|].
  apply rule_based_summary_one_sentence.
  unfold clean_form in H.
  apply andb_true_iff in H as [H _]. apply andb_true_iff in H as [H _].
  apply andb_true_iff in H as [H _].
  apply (all_chars_impl fine); [|exact H].
  intros c Hc. now rewrite (fine_not_stop _ Hc).
Qed.

(** X8. Summarising a cleaned text without the ML summarizer returns it
    unchanged, whatever the word budget: cleaning removes the sentence
    punctuation the rule-based summary splits on. *)
Theorem generate_summary_of_clean_text (text : string) (max_length min_length : Z) :
  generate_summary None (clean_text text) max_length min_length = clean_text text.
Proof.
  pose proof (clean_text_clean_form text) as H.
  now apply summary_of_clean_form.
Qed.

End ContentAnalyzerMore.

(** ** Further properties of storage.py *)

Module StorageMore.
Import PyStr Data Storage StorageQueries StorageFacts.

Section Directory.
Context {Atom : Type}.

(** The file of a directory is usable: absent, or a parseable list. *)
Definition usable (dir : gmap string (JsonFile Atom)) (name : string) : Prop :=
  dir !! name <> Some unreadable.

(** Storing under another name leaves a collection as it is. *)
Lemma store_in_file_other atom name other (dir : gmap string (JsonFile Atom)) :
  name <> other ->
  fst (_store_in_file atom name dir) !! other = dir !! other.
Proof.
  intros Hne. unfold _store_in_file.
  destruct (dir !! name) as [[|existing]|]; cbn [fst];
    [reflexivity | now rewrite lookup_insert_ne | now rewrite lookup_insert_ne].
Qed.

(** Storing under the name of a usable file appends to what is read. *)
Lemma store_in_file_same atom name (dir : gmap string (JsonFile Atom)) :
  usable dir name ->
  fst (_store_in_file atom name dir) !! name
  = Some (atoms_of (read_collection (dir !! name) ++ [atom])).
Proof.
  unfold usable, _store_in_file. intros Hu.
  destruct (dir !! name) as [[|existing]|]; cbn [fst read_collection];
    [congruence | apply lookup_insert_eq | apply lookup_insert_eq].
Qed.

(** The flag of a store is [True] exactly for a usable file. *)
Lemma store_in_file_flag atom name (dir : gmap string (JsonFile Atom)) :
  snd (_store_in_file atom name dir) = true <-> usable dir name.
Proof.
  unfold usable, _store_in_file.
  destruct (dir !! name) as [[|existing]|]; cbn [snd]; split; congruence.
Qed.

(** An unusable file is left untouched. *)
Lemma store_in_file_unreadable atom name (dir : gmap string (JsonFile Atom)) :
  dir !! name = Some unreadable ->
  _store_in_file atom name dir = (dir, false).
Proof. unfold _store_in_file. now intros ->. Qed.

End Directory.

Section Store.
Context {Atom : Type}.
Variable get_product_id : Atom -> option string.
Variable get_source : Atom -> option string.

#[local] Abbreviation store_all := (store_all get_product_id get_source).
#[local] Abbreviation store_each := (store_each get_product_id get_source).

(** The collection names an atom is filed under. *)
Definition category_of (atom : Atom) : string :=
  _get_category (get (get_product_id atom) "unknown").
Definition source_of (atom : Atom) : string := get (get_source atom) "unknown".
Definition product_of (atom : Atom) : string := get (get_product_id atom) "unknown".

Lemma store_all_dirs (st : Store Atom) atom :
  let st' := fst (store_all st atom) in
  categories st' = fst (_store_in_file atom (category_of atom) (categories st)) /\
  sources st' = fst (_store_in_file atom (source_of atom) (sources st)) /\
  trust_atoms st' = fst (_store_in_file atom (product_of atom) (trust_atoms st)).
Proof.
  cbv zeta.
  unfold Storage.store_all, store_by_category, store_by_source, store_as_trust_atom,
    category_of, source_of, product_of.
  destruct (_store_in_file atom _ (categories st)) as [d1 r1].
  cbn [sources trust_atoms categories].
  destruct (_store_in_file atom _ (sources st)) as [d2 r2].
  cbn [sources trust_atoms categories].
  destruct (_store_in_file atom _ (trust_atoms st)) as [d3 r3].
  cbn [fst sources trust_atoms categories]. repeat split.
Qed.

Lemma store_all_flags (st : Store Atom) atom :
  let r := snd (store_all st atom) in
  category_ok r = snd (_store_in_file atom (category_of atom) (categories st)) /\
  source_ok r = snd (_store_in_file atom (source_of atom) (sources st)) /\
  trust_atom_ok r = snd (_store_in_file atom (product_of atom) (trust_atoms st)).
Proof.
  cbv zeta.
  unfold Storage.store_all, store_by_category, store_by_source, store_as_trust_atom,
    category_of, source_of, product_of.
  destruct (_store_in_file atom _ (categories st)) as [d1 r1].
  cbn [sources trust_atoms categories].
  destruct (_store_in_file atom _ (sources st)) as [d2 r2].
  cbn [sources trust_atoms categories].
  destruct (_store_in_file atom _ (trust_atoms st)) as [d3 r3].
  cbn [snd category_ok source_ok trust_atom_ok]. repeat split.
Qed.

(** A batch stored into one directory: the collection [name] gains the
    atoms of the batch filed under [name], in order. *)
Lemma store_batch_dir
  (dir_of : Store Atom -> gmap string (JsonFile Atom)) (key : Atom -> string) :
  (forall st atom,
     dir_of (fst (store_all st atom)) = fst (_store_in_file atom (key atom) (dir_of st))) ->
  forall batch st name,
    usable (dir_of st) name ->
    read_collection (dir_of (store_each st batch) !! name)
    = (read_collection (dir_of st !! name)
       ++ List.filter (fun atom => bool_decide (key atom = name)) batch)%list.
Proof.
  intros Hstep. induction batch as [|atom batch IH]; intros st name Hu.
  - cbn [Storage.store_each List.filter]. now rewrite app_nil_r.
  - cbn [Storage.store_each List.filter].
    destruct (decide (key atom = name)) as [E | E].
    + rewrite (bool_decide_eq_true_2 _ E).
      rewrite IH.
      * rewrite Hstep, E, (store_in_file_same _ _ _ Hu). cbn [read_collection].
        now rewrite <- app_assoc.
      * unfold usable. rewrite Hstep, E, (store_in_file_same _ _ _ Hu). discriminate.
    + rewrite (bool_decide_eq_false_2 _ E).
      rewrite IH.
      * now rewrite Hstep, (store_in_file_other _ _ _ _ E).
      * unfold usable. now rewrite Hstep, (store_in_file_other _ _ _ _ E).
Qed.

(** The same for a collection that exists: it stays a parseable list. *)
Lemma store_batch_dir_existing
  (dir_of : Store Atom -> gmap string (JsonFile Atom)) (key : Atom -> string) :
  (forall st atom,
     dir_of (fst (store_all st atom)) = fst (_store_in_file atom (key atom) (dir_of st))) ->
  forall batch st name stored,
    dir_of st !! name = Some (atoms_of stored) ->
    dir_of (store_each st batch) !! name
    = Some (atoms_of
              (stored ++ List.filter (fun atom => bool_decide (key atom = name)) batch)%list).
Proof.
  intros Hstep. induction batch as [|atom batch IH]; intros st name stored Hst.
  - cbn [Storage.store_each List.filter]. now rewrite app_nil_r.
  - cbn [Storage.store_each List.filter].
    assert (Hu : usable (dir_of st) name) by (unfold usable; rewrite Hst; discriminate).
    destruct (decide (key atom = name)) as [E | E].
    + rewrite (bool_decide_eq_true_2 _ E).
      rewrite (IH _ name (stored ++ [atom])%list).
      * now rewrite <- app_assoc.
      * rewrite Hstep, E, (store_in_file_same _ _ _ Hu), Hst. reflexivity.
    + rewrite (bool_decide_eq_false_2 _ E).
      apply IH. now rewrite Hstep, (store_in_file_other _ _ _ _ E).
Qed.

End Store.







Section Effects.
Context {Atom : Type}.

(** What one [_store_in_file] does to what is read from any collection of
    the directory. *)
Lemma store_in_file_extends atom name other (dir : gmap string (JsonFile Atom)) :
  exists added,
    read_collection (fst (_store_in_file atom name dir) !! other)
    = (read_collection (dir !! other) ++ added)%list
    /\ (added = [] \/ added = [atom]).
Proof.
  destruct (decide (name = other)) as [<- | Hne].
  - unfold _store_in_file.
    destruct (dir !! name) as [[|existing]|] eqn:E; cbn [fst].
    + exists []. rewrite E, app_nil_r. split; [reflexivity | now left].
    + exists [atom]. rewrite lookup_insert_eq. cbn [read_collection].
      split; [reflexivity | now right].
    + exists [atom]. rewrite lookup_insert_eq. cbn [read_collection].
      split; [reflexivity | now right].
  - exists []. rewrite (store_in_file_other _ _ _ _ Hne), app_nil_r.
    split; [reflexivity | now left].
Qed.

Lemma store_in_file_outcome atom name (dir : gmap string (JsonFile Atom)) :
  let '(dir', ok) := _store_in_file atom name dir in
  (ok = true /\ dir !! name <> Some unreadable /\
   dir' = <[name := atoms_of (read_collection (dir !! name) ++ [atom])]> dir)
  \/ (ok = false /\ dir !! name = Some unreadable /\ dir' = dir).
Proof.
  unfold _store_in_file.
  destruct (dir !! name) as [[|existing]|]; cbn [read_collection].
  - right. repeat split.
  - left. repeat split. discriminate.
  - left. repeat split. discriminate.
Qed.

End Effects.



End StorageMore.

(** ** Further properties of product_matcher.py *)

Module ProductMatcherMore.
Import PyStr PyStrFacts PyOs Data ProductMatcher ProductMatcherFacts
       ContentAnalyzer ContentAnalyzerMore.

Lemma Qgtb_lt x y : Qgtb x y = true <-> (y < x)%Q.
Proof.
  unfold Qgtb. rewrite negb_true_iff. split.
  - intros H. destruct (Qlt_le_dec y x) as [Hlt | Hle]; [exact Hlt|].
    apply Qle_bool_iff in Hle. congruence.
  - intros H. destruct (Qle_bool x y) eqn:E; [|reflexivity].
    apply Qle_bool_iff in E. exfalso. now apply (Qlt_not_le _ _ H).
Qed.

(** The ids registered. *)
Definition ids (registry : Registry) : list string := List.map fst registry.

(** The first stage answers with a registered id and 0.9 or 0.95, or with
    nothing and 0. *)
Lemma exact_alias_loop_result text_lower (items : Registry) :
  (exists product_id score,
     exact_alias_loop text_lower items = (Some product_id, score) /\
     In product_id (ids items) /\ (score = 0.9%Q \/ score = 0.95%Q))
  \/ exact_alias_loop text_lower items = (None, 0%Q).
Proof.
  induction items as [|[pid p] items IH]; [now right|].
  rewrite exact_alias_loop_cons. destruct (hit text_lower p).
  - left. exists pid, (hit_score text_lower p). split; [reflexivity|].
    split; [now left|]. unfold hit_score.
    destruct (canonical_in text_lower p); [now right | now left].
  - destruct IH as [(pid' & score & E & Hin & Hs) | E]; [|now right].
    left. exists pid', score. split; [exact E|]. split; [now right | exact Hs].
Qed.

Section Fuzzy.
Variable fuzzy : string -> string -> Q.

(** What the scoring loops keep true of the best candidate so far. *)
Definition best_ok (registry : Registry) (best : option string * Q) : Prop :=
  match fst best with
  | Some product_id => In product_id (ids registry) /\ (0 < snd best)%Q
  | None => snd best = 0%Q
  end.

Lemma fuzzy_loop_ok registry brands text_lower items :
  forall best_match best_score,
    (forall item, In item items -> In (fst item) (ids registry)) ->
    best_ok registry (best_match, best_score) ->
    best_ok registry
      (fuzzy_loop fuzzy brands text_lower items best_match best_score).
Proof.
  induction items as [|[pid p] items IH]; intros bm bs Hitems Hok; [exact Hok|].
  assert (Hrest : forall item, In item items -> In (fst item) (ids registry))
    by (intros item Hi; apply Hitems; now right).
  assert (Hpid : In pid (ids registry)) by (apply (Hitems (pid, p)); now left).
  assert (Hnew : forall score, Qgtb score bs = true ->
                   best_ok registry (Some pid, score)).
  { intros score Hgt. apply Qgtb_lt in Hgt. split; [exact Hpid|].
    cbn [snd]. unfold best_ok in Hok. cbn [fst snd] in Hok.
    destruct bm as [b|].
    - destruct Hok as [_ Hpos]. now apply Qlt_trans with bs.
    - now rewrite Hok in Hgt. }
  cbn [fuzzy_loop]. destruct brands as [mentioned|].
  - destruct (existsb _ mentioned); [|now apply IH].
    destruct (Qgtb _ bs) eqn:E; apply IH; auto.
  - destruct (Qgtb _ bs) eqn:E; apply IH; auto.
Qed.

(** The result of the fuzzy stage keeps the loop invariant, and its score
    is capped at 1. *)
Lemma fuzzy_stage_ok (registry : Registry) (text : string) :
  let result := fuzzy_brand_product_match fuzzy registry text in
  best_ok registry (fst result, snd result) /\ (snd result <= 1)%Q /\
  (fst result = None -> snd result = Qmin 0 1.0).
Proof.
  cbv zeta. unfold fuzzy_brand_product_match.
  set (text_lower := lower text).
  set (mentioned := mentioned_brands registry text_lower).
  assert (H : forall brands,
             best_ok registry (fuzzy_loop fuzzy brands text_lower registry None 0%Q)).
  { intros brands. apply fuzzy_loop_ok; [|reflexivity].
    intros item Hi. unfold ids. apply in_map_iff. now exists item. }
  assert (Hb : exists brands,
             match mentioned with
             | [] => fuzzy_loop fuzzy None text_lower registry None 0%Q
             | _ :: _ => fuzzy_loop fuzzy (Some mentioned) text_lower registry None 0%Q
             end = fuzzy_loop fuzzy brands text_lower registry None 0%Q).
  { destruct mentioned; [now exists None | now eexists (Some _)]. }
  destruct Hb as (brands & ->). specialize (H brands).
  destruct (fuzzy_loop fuzzy brands text_lower registry None 0%Q) as [bm bs].
  unfold best_ok in *. cbn [fst snd] in *.
  split; [|split].
  - destruct bm as [pid|].
    + destruct H as [Hin Hpos]. split; [exact Hin|].
      apply Q.min_glb_lt; [exact Hpos | reflexivity].
    + subst bs. reflexivity.
  - apply Qle_trans with 1.0%Q; [apply Q.le_min_r | unfold Qle; simpl; lia].
  - intros ->. now subst bs.
Qed.

(** X14. The fuzzy stage returns a score in [0, 1] whatever the
    similarity function gives; a product it names is registered and has a
    positive score, and when it names none the score is 0. *)
Theorem fuzzy_brand_product_match_result (registry : Registry) (text : string) :
  let result := fuzzy_brand_product_match fuzzy registry text in
  (0 <= snd result)%Q /\ (snd result <= 1)%Q /\
  match fst result with
  | Some product_id => In product_id (List.map fst registry) /\ (0 < snd result)%Q
  | None => (snd result == 0)%Q
  end.
Proof.
  cbv zeta. destruct (fuzzy_stage_ok registry text) as (Hok & Hle & Hnone).
  unfold best_ok in Hok. cbn [fst snd] in Hok.
  destruct (fst (fuzzy_brand_product_match fuzzy registry text)) as [pid|].
  - destruct Hok as [Hin Hpos].
    split; [now apply Qlt_le_weak|]. split; [exact Hle|]. split; assumption.
  - rewrite (Hnone eq_refl).
    split; [unfold Qle; vm_compute; discriminate|].
    split; [unfold Qle; vm_compute; discriminate | vm_compute; reflexivity].
Qed.

End Fuzzy.

(** X15. Whatever the registry and the text, a call of [match_product]
    that returns a product returns a non-empty registered id and leaves the
    log as it was, by method "exact_alias" with score 0.9 or 0.95 or by
    method "fuzzy_brand_product" with a score over 0.6 and at most 1.  A
    call that returns no product was made with a registry path that has a
    directory part; it returns the fallback info (score 0.1, no
    alternatives, the three flags false), and the log holds its former
    entries, none when it was absent or unparseable, followed by exactly
    one unprocessed entry for the text.  A call that raises raises
    [FileNotFoundError], no stage having accepted, with a registry path
    that is a bare file name. *)
Theorem match_product_result
  (fuzzy : string -> string -> Q) (registry : Registry)
  (product_registry_path : string)
  (embeddings : bool) (now : string) (log : LogFile) (text : string) :
  match
    match_product fuzzy registry product_registry_path embeddings now log text
  with
  | returned ((Some product_id, info), log') =>
      truthy product_id = true /\
      In product_id (List.map fst registry) /\
      log' = log /\
      exists score,
        match_score info = Some score /\
        ((match_method info = "exact_alias" /\ (score = 0.9%Q \/ score = 0.95%Q))
         \/ (match_method info = "fuzzy_brand_product"
             /\ (0.6 < score)%Q /\ (score <= 1)%Q))
  | returned ((None, info), log') =>
      contains "/" product_registry_path = true /\
      info
      = {| match_method := "fallback";
           match_score := Some 0.1%Q;
           alternative_matches := [];
           context_factors :=
             {| brand_mentioned := false;
                product_type_mentioned := false;
                identifier_mentioned := false |} |} /\
      log'
      = log_entries
          (match log with
           | log_entries entries => entries
           | log_absent | log_unreadable => []
           end
           ++ [ {| mention_text := text; logged_at := now;
                   status := "unprocessed" |} ])
  | raised exception =>
      exception = FileNotFoundError /\
      contains "/" product_registry_path = false /\
      accepted (exact_alias_match registry text) 0.8%Q = false /\
      accepted (fuzzy_brand_product_match fuzzy registry text) 0.6%Q = false
  end.
Proof.
  rewrite match_product_stages. cbv zeta.
  destruct (accepted (exact_alias_match registry text) 0.8) eqn:E1.
  - apply accepted_some in E1 as (pid & Hpid & Hid & Hgt).
    rewrite Hpid.
    split; [exact Hid|].
    unfold exact_alias_match in *.
    destruct (exact_alias_loop_result (lower text) registry)
      as [(pid' & score & E & Hin & Hs) | E]; rewrite E in *; cbn [fst snd] in *.
    + inversion Hpid; subst pid'. split; [exact Hin|]. split; [reflexivity|].
      exists score. split; [reflexivity | left; split; [reflexivity | exact Hs]].
    + discriminate.
  - destruct (accepted (fuzzy_brand_product_match fuzzy registry text) 0.6) eqn:E2.
    + apply accepted_some in E2 as (pid & Hpid & Hid & Hgt).
      apply Qgtb_lt in Hgt. rewrite Hpid.
      destruct (fuzzy_stage_ok fuzzy registry text) as (Hres & Hle & _).
      unfold best_ok in Hres. cbn [fst snd] in Hres.
      rewrite Hpid in Hres. destruct Hres as [Hin _].
      split; [exact Hid|]. split; [exact Hin|]. split; [reflexivity|].
      eexists. split; [reflexivity|]. right. split; [reflexivity|].
      split; [exact Hgt | exact Hle].
    + rewrite log_unmatched_cases.
      destruct (contains "/" product_registry_path); repeat split.
Qed.

Lemma exact_alias_match_lower registry text :
  exact_alias_match registry (lower text) = exact_alias_match registry text.
Proof. unfold exact_alias_match. now rewrite lower_idempotent. Qed.

Lemma fuzzy_brand_product_match_lower fuzzy registry text :
  fuzzy_brand_product_match fuzzy registry (lower text)
  = fuzzy_brand_product_match fuzzy registry text.
Proof. unfold fuzzy_brand_product_match. now rewrite lower_idempotent. Qed.

(** X16. The product, the method and the score that [match_product]
    returns do not depend on the letter case of the text: the call on the
    lowercased text returns exactly when the call on the text does, with
    the same product id, method and score, and otherwise both raise the
    same exception. *)
Theorem match_product_case_insensitive
  (fuzzy : string -> string -> Q) (registry : Registry)
  (product_registry_path : string)
  (embeddings : bool) (now : string) (log : LogFile) (text : string) :
  match
    match_product fuzzy registry product_registry_path embeddings now log
                  (lower text),
    match_product fuzzy registry product_registry_path embeddings now log text
  with
  | returned (lowered, _), returned (original, _) =>
      fst lowered = fst original /\
      match_method (snd lowered) = match_method (snd original) /\
      match_score (snd lowered) = match_score (snd original)
  | raised exception, raised exception' => exception = exception'
  | _, _ => False
  end.
Proof.
  rewrite !match_product_stages. cbv zeta.
  rewrite exact_alias_match_lower, fuzzy_brand_product_match_lower.
  destruct (accepted (exact_alias_match registry text) 0.8);
    [repeat split|].
  destruct (accepted (fuzzy_brand_product_match fuzzy registry text) 0.6);
    [repeat split|].
  rewrite !log_unmatched_cases.
  destruct (contains "/" product_registry_path); repeat split.
Qed.

Lemma insert_desc_length x l :
  List.length (insert_desc x l) = S (List.length l).
Proof.
  induction l as [|y l IH]; cbn [insert_desc]; [reflexivity|].
  destruct (Qgtb (snd y) (snd x)); cbn [List.length]; [now rewrite IH | reflexivity].
Qed.

Lemma sort_desc_length l : List.length (sort_desc l) = List.length l.
Proof.
  induction l as [|x l IH]; [reflexivity|].
  cbn [sort_desc fold_right]. fold (sort_desc l).
  now rewrite insert_desc_length, IH.
Qed.

(** X17. The number of alternatives is the limit or the number of
    registered products but one, whichever is smaller: every product
    except the top fuzzy candidate is offered, up to the limit. *)
Theorem alternatives_count
  (fuzzy : string -> string -> Q) (registry : Registry) (text : string)
  (limit : nat) :
  List.length (_get_alternative_matches fuzzy registry text limit)
  = Nat.min limit (List.length registry - 1).
Proof.
  unfold _get_alternative_matches.
  rewrite length_map, length_firstn, length_skipn, sort_desc_length, length_map.
  reflexivity.
Qed.

(** The score in the match info of any result returned lies in
    [0.1, 1]; the call raises only for a bare file name. *)
Lemma match_product_score_bounds
  (fuzzy : string -> string -> Q) (registry : Registry)
  (product_registry_path : string)
  (embeddings : bool) (now : string) (log : LogFile) (text : string) :
  match
    match_product fuzzy registry product_registry_path embeddings now log text
  with
  | returned ((_, info), _) =>
      (0.1 <= get (match_score info) 0.1)%Q /\ (get (match_score info) 0.1 <= 1)%Q
  | raised _ => contains "/" product_registry_path = false
  end.
Proof.
  rewrite match_product_stages. cbv zeta.
  destruct (accepted (exact_alias_match registry text) 0.8) eqn:E1.
  - apply accepted_some in E1 as (pid & Hpid & _ & _).
    cbn [fst snd _create_match_info match_score get].
    unfold exact_alias_match in *.
    destruct (exact_alias_loop_result (lower text) registry)
      as [(pid' & score & E & _ & [-> | ->]) | E]; rewrite E in *; cbn [fst snd] in *;
      try discriminate; split; unfold Qle; simpl; lia.
  - destruct (accepted (fuzzy_brand_product_match fuzzy registry text) 0.6) eqn:E2.
    + apply accepted_some in E2 as (pid & _ & _ & Hgt). apply Qgtb_lt in Hgt.
      cbn [fst snd _create_match_info match_score get].
      destruct (fuzzy_stage_ok fuzzy registry text) as (_ & Hle & _).
      split; [|exact Hle]. apply Qlt_le_weak.
      apply Qlt_trans with 0.6%Q; [reflexivity | exact Hgt].
    + rewrite log_unmatched_cases.
      destruct (contains "/" product_registry_path); [|reflexivity].
      cbn. split; unfold Qle; simpl; lia.
Qed.

End ProductMatcherMore.

(** ** Further properties of trust_atom_creator.py *)

Module TrustAtomCreatorMore.
Import PyStr PyOs PyOsFacts Data TrustAtomCreator ContentAnalyzer ProductMatcher
       ProductMatcherFacts ProductMatcherMore AtomFile Storage.

Section Atom.
Variable sha256_hexdigest : string -> string.
Variables uuid_hex now : string.
Variable feedback : Feedback.
Variable match_info : MatchInfo.
Variable sentiment : string * Q.
Variable tags : list string.
Variable summary : option string.

#[local] Abbreviation atom_for product_id :=
  (create_trust_atom sha256_hexdigest uuid_hex now feedback
     (product_id, match_info) sentiment tags summary).

Lemma create_trust_atom_product_id_cases (matched : option string) :
  product_id (atom_for matched)
  = match matched with
    | Some p => if truthy p then p else "unknown_product"
    | None => "unknown_product"
    end.
Proof. unfold create_trust_atom. destruct sentiment. reflexivity. Qed.

End Atom.

(** X18. The product id of a created atom is never empty: it is the
    matched id, or the sentinel "unknown_product" when the match is absent
    or empty. *)
Theorem create_trust_atom_product_id
  (sha256_hexdigest : string -> string) (uuid_hex now : string)
  (feedback : Feedback) (matched : option string) (match_info : MatchInfo)
  (sentiment : string * Q) (tags : list string) (summary : option string) :
  let atom :=
    create_trust_atom sha256_hexdigest uuid_hex now feedback
      (matched, match_info) sentiment tags summary in
  truthy (product_id atom) = true /\
  (matched = Some (product_id atom)
   \/ (product_id atom = "unknown_product" /\ truthy_id matched = false)).
Proof.
  cbv zeta. rewrite create_trust_atom_product_id_cases.
  destruct matched as [p|]; cbn [truthy_id].
  - destruct (truthy p) eqn:E; [split; [exact E | now left]|].
    split; [reflexivity | right; now split].
  - split; [reflexivity | right; now split].
Qed.

(** X19. The source-specific block follows the source of the feedback,
    compared without regard to case: Reddit, YouTube and Amazon data for
    those three sources and an empty block for every other source. *)
Theorem create_trust_atom_source_data
  (sha256_hexdigest : string -> string) (uuid_hex now : string)
  (feedback : Feedback) (result : option string * MatchInfo)
  (sentiment : string * Q) (tags : list string) (summary : option string) :
  let atom :=
    create_trust_atom sha256_hexdigest uuid_hex now feedback result
      sentiment tags summary in
  let source := lower (get (fb_source feedback) "") in
  match source_specific_data atom with
  | reddit_data subreddit post_title post_score =>
      source = "reddit" /\
      subreddit = get (fb_subreddit feedback) "" /\
      post_title = get (fb_post_title feedback) "" /\
      post_score = get (fb_post_score feedback) 0%Z
  | youtube_data video_title channel_name video_views timestamp_in_video =>
      source = "youtube" /\
      video_title = get (fb_video_title feedback) "" /\
      channel_name = get (fb_channel_name feedback) "" /\
      video_views = get (fb_video_views feedback) 0%Z /\
      timestamp_in_video = get (fb_timestamp_in_video feedback) ""
  | amazon_data product_title star_rating review_title =>
      source = "amazon" /\
      product_title = get (fb_product_title feedback) "" /\
      star_rating = get (fb_star_rating feedback) 0%Z /\
      review_title = get (fb_review_title feedback) ""
  | no_source_data =>
      source <> "reddit" /\ source <> "youtube" /\ source <> "amazon"
  end.
Proof.
  cbv zeta. unfold create_trust_atom. destruct result, sentiment.
  cbn [source_specific_data].
  destruct (String.eqb_spec (lower (get (fb_source feedback) "")) "reddit") as [E1|E1];
    [repeat split; exact E1|].
  destruct (String.eqb_spec (lower (get (fb_source feedback) "")) "youtube") as [E2|E2];
    [repeat split; exact E2|].
  destruct (String.eqb_spec (lower (get (fb_source feedback) "")) "amazon") as [E3|E3];
    [repeat split; exact E3|].
  repeat split; assumption.
Qed.

Lemma weighted_bounds (lo1 hi1 lo2 hi2 x y : Q) :
  (lo1 <= x)%Q -> (x <= hi1)%Q -> (lo2 <= y)%Q -> (y <= hi2)%Q ->
  (0.7 * lo1 + 0.3 * lo2 <= 0.7 * x + 0.3 * y)%Q /\
  (0.7 * x + 0.3 * y <= 0.7 * hi1 + 0.3 * hi2)%Q.
Proof.
  intros H1 H2 H3 H4. split; apply Qplus_le_compat;
    apply Qmult_le_l; try reflexivity; assumption.
Qed.

(** X20. When the match score, if present, and the sentiment confidence
    lie in [0, 1], so does the confidence score of the atom. *)
Theorem create_trust_atom_confidence_range
  (sha256_hexdigest : string -> string) (uuid_hex now : string)
  (feedback : Feedback) (matched : option string) (match_info : MatchInfo)
  (label : string) (confidence : Q) (tags : list string) (summary : option string) :
  (forall score, match_score match_info = Some score ->
     (0 <= score)%Q /\ (score <= 1)%Q) ->
  (0 <= confidence)%Q -> (confidence <= 1)%Q ->
  let atom :=
    create_trust_atom sha256_hexdigest uuid_hex now feedback
      (matched, match_info) (label, confidence) tags summary in
  (0 <= confidence_score atom)%Q /\ (confidence_score atom <= 1)%Q.
Proof.
  intros Hm H0 H1. cbv zeta. unfold create_trust_atom. cbn [confidence_score].
  assert (Hs : (0 <= get (match_score match_info) 0.1)%Q
               /\ (get (match_score match_info) 0.1 <= 1)%Q).
  { destruct (match_score match_info) as [score|]; cbn [get].
    - now apply Hm.
    - split; unfold Qle; simpl; lia. }
  destruct Hs as [Hs0 Hs1].
  destruct (weighted_bounds 0 1 0 1 _ _ Hs0 Hs1 H0 H1) as [Hlo Hhi].
  split.
  - eapply Qle_trans; [|exact Hlo]. unfold Qle; simpl; lia.
  - eapply Qle_trans; [exact Hhi|]. unfold Qle; simpl; lia.
Qed.

Lemma create_trust_atom_confidence_range_witness :
  let atom :=
    create_trust_atom (fun _ => "") "0123456789abcdef" "2025-06-26T15:30:00"
      ContentAnalyzerFacts.reddit_51
      (Some "cerave_foaming_cleanser_12oz", fallback_info)
      ("positive", 0.8%Q) ["skincare"] None in
  (0 <= confidence_score atom)%Q /\ (confidence_score atom <= 1)%Q.
Proof.
  apply (create_trust_atom_confidence_range (fun _ => "") "0123456789abcdef"
           "2025-06-26T15:30:00" ContentAnalyzerFacts.reddit_51
           (Some "cerave_foaming_cleanser_12oz") fallback_info
           "positive" 0.8%Q ["skincare"] None).
  - intros score H. inversion H; subst. split; unfold Qle; simpl; lia.
  - unfold Qle; simpl; lia.
  - unfold Qle; simpl; lia.
Defined.

Lemma analyze_sentiment_confidence (text : string) :
  (0.5 <= snd (analyze_sentiment text))%Q /\ (snd (analyze_sentiment text) <= 0.9)%Q.
Proof.
  assert (K : forall n : nat,
             (0.5 <= Qmin (0.5 + inject_Z (Z.of_nat n) * 0.1) 0.9)%Q
             /\ (Qmin (0.5 + inject_Z (Z.of_nat n) * 0.1) 0.9 <= 0.9)%Q).
  { intros n. split; [|apply Q.le_min_r].
    apply Q.min_glb; [|unfold Qle; simpl; lia].
    assert (H : (0 <= inject_Z (Z.of_nat n) * 0.1)%Q).
    { apply Qmult_le_0_compat; unfold Qle; simpl; lia. }
    apply Qle_trans with (0.5 + 0)%Q; [unfold Qle; simpl; lia|].
    now apply Qplus_le_r. }
  unfold analyze_sentiment.
  repeat match goal with
         | |- context [if ?b then _ else _] => destruct b
         end;
    cbn [snd]; first [ apply K | split; unfold Qle; simpl; lia ].
Qed.

(** X21. Whatever the registry, the text and the similarity function:
    when [match_product] returns, the atom the pipeline builds from its
    result and the sentiment of the text has a confidence score strictly
    between 0.2 and 1; the call raises, and no atom is built, only when
    the registry path is a bare file name. *)
Theorem pipeline_confidence_range
  (fuzzy : string -> string -> Q) (registry : Registry)
  (product_registry_path : string) (embeddings : bool)
  (log : LogFile) (sha256_hexdigest : string -> string)
  (uuid_hex now : string) (feedback : Feedback) (text : string)
  (tags : list string) (summary : option string) :
  match
    match_product fuzzy registry product_registry_path embeddings now log text
  with
  | returned (product_match_result, _) =>
      let atom :=
        create_trust_atom sha256_hexdigest uuid_hex now feedback
          product_match_result (analyze_sentiment text) tags summary in
      (0.2 < confidence_score atom)%Q /\ (confidence_score atom < 1)%Q
  | raised _ => contains "/" product_registry_path = false
  end.
Proof.
  pose proof (match_product_score_bounds fuzzy registry product_registry_path
                embeddings now log text) as Hm.
  destruct (match_product fuzzy registry product_registry_path embeddings now log
              text) as [[[pid info] log']|exception]; [|exact Hm].
  destruct Hm as [Hm0 Hm1]. cbv zeta.
  destruct (analyze_sentiment_confidence text) as [Hs0 Hs1].
  destruct (analyze_sentiment text) as [label confidence]. cbn [snd] in *.
  unfold create_trust_atom. cbn [confidence_score].
  destruct (weighted_bounds 0.1 1 0.5 0.9 _ _ Hm0 Hm1 Hs0 Hs1) as [Hlo Hhi].
  split.
  - eapply Qlt_le_trans; [|exact Hlo]. reflexivity.
  - eapply Qle_lt_trans; [exact Hhi|]. reflexivity.
Qed.

Lemma take_length n s :
  String.length (take n s) = Nat.min n (String.length s).
Proof.
  revert s. induction n as [|n IH]; intros [|c s]; cbn [take String.length Nat.min];
    try reflexivity.
  now rewrite IH.
Qed.

(** X22. With a digest of 64 characters, a non-empty username is replaced
    by "sha256:" and the first 16 characters of its digest, 23 characters
    in all, which is never the sentinel "sha256:anonymous" of an absent or
    empty username; the preprocessor's copy of the function agrees with
    the creator's. *)
Theorem anonymize_username_shape
  (sha256_hexdigest : string -> string) (username : option string) :
  (forall u, String.length (sha256_hexdigest u) = 64%nat) ->
  Envelope.anonymize_username sha256_hexdigest username
  = _anonymize_username sha256_hexdigest username /\
  match username with
  | Some u =>
      if truthy u
      then _anonymize_username sha256_hexdigest username
           = "sha256:" ++ take 16 (sha256_hexdigest u)
           /\ String.length (_anonymize_username sha256_hexdigest username) = 23%nat
           /\ _anonymize_username sha256_hexdigest username <> "sha256:anonymous"
      else _anonymize_username sha256_hexdigest username = "sha256:anonymous"
  | None => _anonymize_username sha256_hexdigest username = "sha256:anonymous"
  end.
Proof.
  intros Hlen. split; [reflexivity|].
  destruct username as [[|c u]|]; cbn [truthy is_empty negb _anonymize_username];
    try reflexivity.
  assert (L : String.length ("sha256:" ++ take 16 (sha256_hexdigest (String c u)))
              = 23%nat).
  { rewrite PyStrFacts.string_length_app, take_length, Hlen. reflexivity. }
  split; [reflexivity|]. split; [exact L|].
  intros E. rewrite E in L. discriminate L.
Qed.

Lemma anonymize_username_shape_witness :
  let sha := fun _ : string =>
    "e606e38b0d8c19b24cf0ee3808183162ea7cd63ff7912dbb22b5e803286b4446" in
  Envelope.anonymize_username sha (Some "user123")
  = _anonymize_username sha (Some "user123") /\
  (if truthy "user123"
   then _anonymize_username sha (Some "user123")
        = "sha256:" ++ take 16 (sha "user123")
        /\ String.length (_anonymize_username sha (Some "user123")) = 23%nat
        /\ _anonymize_username sha (Some "user123") <> "sha256:anonymous"
   else _anonymize_username sha (Some "user123") = "sha256:anonymous").
Proof.
  cbv zeta.
  apply (anonymize_username_shape
           (fun _ => "e606e38b0d8c19b24cf0ee3808183162ea7cd63ff7912dbb22b5e803286b4446")
           (Some "user123")).
  intros u. reflexivity.
Defined.

(** The atoms saved one after the other into the single output file, as
    the loop of the pipeline does. *)
Definition save_each (output_path : string) (file : option (JsonFile TrustAtom))
  (batch : list TrustAtom) : option (JsonFile TrustAtom) * list bool :=
  fold_left
    (fun acc atom =>
       let '(file', ok) := save_trust_atom atom output_path (fst acc) in
       (file', (snd acc ++ [ok])%list))
    batch (file, []).

(** [save_trust_atom] by the form of the output path and the state of the
    file. *)
Lemma save_trust_atom_cases atom output_path file :
  save_trust_atom atom output_path file =
  if contains "/" output_path then
    match file with
    | None => (Some (atoms_of [atom]), true)
    | Some (atoms_of existing_data) =>
        (Some (atoms_of (existing_data ++ [atom])%list), true)
    | Some unreadable => (file, false)
    end
  else (file, false).
Proof.
  unfold save_trust_atom, makedirs. rewrite dirname_empty.
  destruct (contains "/" output_path); reflexivity.
Qed.

Lemma save_each_refused output_path batch : forall file flags,
  (contains "/" output_path = false \/ file = Some unreadable) ->
  fold_left
    (fun acc atom =>
       let '(file', ok) := save_trust_atom atom output_path (fst acc) in
       (file', (snd acc ++ [ok])%list))
    batch (file, flags)
  = (file, (flags ++ List.map (fun _ => false) batch)%list).
Proof.
  induction batch as [|atom batch IH]; intros file flags H.
  - cbn. now rewrite app_nil_r.
  - cbn [fold_left fst snd].
    assert (E : save_trust_atom atom output_path file = (file, false)).
    { rewrite save_trust_atom_cases.
      destruct H as [-> | ->]; [reflexivity|].
      destruct (contains "/" output_path); reflexivity. }
    rewrite E, IH by exact H. cbn [List.map]. now rewrite <- app_assoc.
Qed.

Lemma save_each_usable output_path batch : forall existing_data flags,
  contains "/" output_path = true ->
  fold_left
    (fun acc atom =>
       let '(file', ok) := save_trust_atom atom output_path (fst acc) in
       (file', (snd acc ++ [ok])%list))
    batch (Some (atoms_of existing_data), flags)
  = (Some (atoms_of (existing_data ++ batch)%list),
     (flags ++ List.map (fun _ => true) batch)%list).
Proof.
  induction batch as [|atom batch IH]; intros existing_data flags H.
  - cbn. now rewrite !app_nil_r.
  - cbn [fold_left fst snd]. rewrite save_trust_atom_cases, H, IH by exact H.
    cbn [List.map]. now rewrite <- !app_assoc.
Qed.

(** X23. Saving a non-empty batch into the single output file, one atom
    after the other.  When the output path has a directory part: if the
    file is absent every call returns [True] and the file ends as the
    batch, if it holds a list every call returns [True] and the file ends
    with its previous atoms followed by the batch, and if it cannot be
    parsed every call returns [False] and the file is left as it is.  When
    the output path is a bare file name, making its directory raises in
    every call: every call returns [False] and nothing is written. *)
Theorem save_each_result (output_path : string)
  (file : option (JsonFile TrustAtom)) (batch : list TrustAtom) :
  batch <> [] ->
  save_each output_path file batch
  = if contains "/" output_path then
      match file with
      | None => (Some (atoms_of batch), List.map (fun _ => true) batch)
      | Some (atoms_of existing_data) =>
          (Some (atoms_of (existing_data ++ batch)%list),
           List.map (fun _ => true) batch)
      | Some unreadable => (file, List.map (fun _ => false) batch)
      end
    else (file, List.map (fun _ => false) batch).
Proof.
  intros Hne. unfold save_each.
  destruct (contains "/" output_path) eqn:Hdir.
  - destruct file as [[|existing_data]|].
    + now apply save_each_refused; right.
    + now apply save_each_usable.
    + destruct batch as [|atom batch]; [congruence|].
      cbn [fold_left fst snd]. rewrite save_trust_atom_cases, Hdir.
      now rewrite save_each_usable.
  - now apply save_each_refused; left.
Qed.

Lemma save_each_result_witness :
  save_each "output/trust_atoms.json" None
    [StorageFacts.sample_atom "1"; StorageFacts.sample_atom "2"]
  = (Some (atoms_of [StorageFacts.sample_atom "1"; StorageFacts.sample_atom "2"]),
     [true; true]).
Proof.
  apply (save_each_result "output/trust_atoms.json" None
           [StorageFacts.sample_atom "1"; StorageFacts.sample_atom "2"]).
  discriminate.
Defined.

(** With a bare file name nothing is saved. *)
Example save_each_bare_file_name :
  save_each "trust_atoms.json" None
    [StorageFacts.sample_atom "1"; StorageFacts.sample_atom "2"]
  = (None, [false; false]).
Proof. reflexivity. Qed.

End TrustAtomCreatorMore.

(** ** Further properties of preprocessor.py *)

Module EnvelopeFacts.
Import PyStr PyStrFacts Data Preprocessor PreprocessorFacts ContentAnalyzer
       ContentAnalyzerMore Envelope.

Lemma clean_form_parts s :
  clean_form s = true ->
  all_chars fine s = true /\ squeezed s = true /\
  head_space s = false /\ last_space s = false.
Proof.
  unfold clean_form. intros H.
  apply andb_true_iff in H as [H Hl]. apply andb_true_iff in H as [H Hh].
  apply andb_true_iff in H as [Hf Hs].
  apply negb_true_iff in Hl, Hh. tauto.
Qed.

Lemma fine_not_newline c : fine c = true -> Ascii.eqb c newline = false.
Proof. ascii_cases c; vm_compute; congruence. Qed.

Lemma split_on_no_sep sep s : forall cur,
  all_chars (fun c => negb (Ascii.eqb c sep)) s = true ->
  split_on sep cur s = [cur ++ s].
Proof.
  induction s as [|c s IH]; intros cur H; cbn [split_on].
  - now rewrite append_nil_r.
  - cbn [all_chars] in H. apply andb_true_iff in H as [Hc Hs].
    apply negb_true_iff in Hc. rewrite Hc, (IH _ Hs), append_assoc. reflexivity.
Qed.

(** X24. A cleaned text is one segment: [segment_text] finds exactly one
    paragraph and one sentence, the text itself, or none when the text is
    empty. *)
Theorem segment_text_of_clean_text (text : string) :
  let cleaned := clean_text text in
  let segments := segment_text cleaned in
  full_text segments = cleaned /\
  paragraphs segments = (if is_empty cleaned then [] else [cleaned]) /\
  sentences segments = (if is_empty cleaned then [] else [cleaned]).
Proof.
  cbv zeta.
  destruct (clean_form_parts _ (clean_text_clean_form text)) as (Hf & Hs & Hh & Hl).
  set (cleaned := clean_text text) in *.
  assert (Hstrip : strip cleaned = cleaned) by now apply strip_fixed.
  assert (Hone : stripped_nonempty [cleaned] = if is_empty cleaned then [] else [cleaned]).
  { unfold stripped_nonempty. cbn [List.filter]. rewrite Hstrip.
    unfold truthy. destruct (is_empty cleaned); cbn [negb List.map]; [reflexivity|].
    now rewrite Hstrip. }
  unfold segment_text. cbn [full_text paragraphs sentences].
  split; [reflexivity|]. split.
  - rewrite (split_on_no_sep newline cleaned "").
    + exact Hone.
    + apply (all_chars_impl fine); [|exact Hf].
      intros c Hc. now rewrite (fine_not_newline _ Hc).
  - unfold re_split. rewrite re_split_no_stop.
    + exact Hone.
    + apply (all_chars_impl fine); [|exact Hf].
      intros c Hc. now rewrite (fine_not_stop _ Hc).
Qed.

Lemma strip_head s : head_space (strip s) = false.
Proof. unfold strip, lstrip. apply rstrip_head, head_space_drop_while. Qed.

Lemma strip_last s : last_space (strip s) = false.
Proof. unfold strip. apply rstrip_last. Qed.

Lemma strip_idempotent s : strip (strip s) = strip s.
Proof. apply strip_fixed; [apply strip_head | apply strip_last]. Qed.

Lemma stripped_nonempty_spec pieces piece :
  In piece (stripped_nonempty pieces) <->
  exists raw, In raw pieces /\ piece = strip raw /\ is_empty piece = false.
Proof.
  unfold stripped_nonempty. rewrite in_map_iff. split.
  - intros (raw & <- & H). apply filter_In in H as [Hin Ht].
    exists raw. repeat split; [exact Hin|]. unfold truthy in Ht.
    now apply negb_true_iff in Ht.
  - intros (raw & Hin & -> & Hne). exists raw. split; [reflexivity|].
    apply filter_In. split; [exact Hin|]. unfold truthy. now rewrite Hne.
Qed.

(** X25. Every paragraph and every sentence that [segment_text] returns
    is non-empty and carries no whitespace at either end. *)
Theorem segment_text_pieces (text : string) (piece : string) :
  In piece (paragraphs (segment_text text))
  \/ In piece (sentences (segment_text text)) ->
  is_empty piece = false /\ strip piece = piece /\
  head_space piece = false /\ last_space piece = false.
Proof.
  unfold segment_text. cbn [paragraphs sentences].
  intros [H | H]; apply stripped_nonempty_spec in H as (raw & _ & -> & Hne);
    (split; [exact Hne|]); (split; [apply strip_idempotent|]);
    (split; [apply strip_head | apply strip_last]).
Qed.

Lemma segment_text_pieces_witness :
  is_empty "two" = false /\ strip "two" = "two" /\
  head_space "two" = false /\ last_space "two" = false.
Proof.
  apply (segment_text_pieces "one.  two " "two").
  right. vm_compute. right. left. reflexivity.
Defined.

Section Clock.
Variable isoformat : Q -> string.
Variable now : string.

(** X26. The text of a standardized comment, Reddit or YouTube, is the
    cleaned comment text: cleaning it again changes nothing, and its
    summary without the ML summarizer is the text itself.  A YouTube
    comment always gets a timestamp, a Reddit comment only when the raw
    comment has one. *)
Theorem processed_comment_text
  (reddit : RedditComment) (post_data : PostData)
  (youtube : YoutubeComment) (video_data : VideoData)
  (max_length min_length : Z) :
  let r := process_reddit_comment isoformat reddit post_data in
  let y := process_youtube_comment now youtube video_data in
  p_text r = clean_text (get (rc_body reddit) "") /\
  p_text y = clean_text (get (yc_text youtube) "") /\
  clean_text (p_text r) = p_text r /\
  clean_text (p_text y) = p_text y /\
  generate_summary None (p_text r) max_length min_length = p_text r /\
  generate_summary None (p_text y) max_length min_length = p_text y /\
  (p_timestamp r = None <-> rc_created_utc reddit = None) /\
  p_timestamp y <> None.
Proof.
  cbv zeta. unfold process_reddit_comment, process_youtube_comment.
  cbn [p_text p_timestamp].
  repeat split;
    try (apply clean_form_fixed, clean_text_clean_form);
    try (apply summary_of_clean_form, clean_text_clean_form);
    try discriminate.
  - destruct (rc_created_utc reddit) as [[q|t]|]; intros H; congruence.
  - intros ->. reflexivity.
Qed.

End Clock.

End EnvelopeFacts.

(** ** Properties of tag extraction *)

Module TagsFacts.
Import PyStr PyStrFacts Data Preprocessor PreprocessorFacts ContentAnalyzerMore
       EnvelopeFacts Tags.

Lemma starts_with_contains tag s : starts_with tag s = true -> contains tag s = true.
Proof. intros H. destruct s; cbn [contains]; now rewrite H. Qed.

Lemma contains_tail tag c s : contains tag s = true -> contains tag (String c s) = true.
Proof. intros H. cbn [contains]. rewrite H. apply orb_true_r. Qed.

(** A whole-word match is in particular an occurrence. *)
Lemma search_word_contains tag s : forall prev,
  search_word_from prev tag s = true -> contains tag s = true.
Proof.
  induction s as [|c s IH]; intros prev H; cbn [search_word_from] in H.
  - rewrite orb_false_r in H. apply starts_with_contains.
    unfold word_at in H. unfold starts_with.
    destruct (strip_prefix tag ""); [reflexivity | discriminate].
  - apply orb_true_iff in H as [H | H].
    + apply starts_with_contains. unfold word_at in H. unfold starts_with.
      destruct (strip_prefix tag (String c s)); [reflexivity | discriminate].
    + apply contains_tail. now apply (IH (Some c)).
Qed.

Lemma contains_all_chars (p : ascii -> bool) tag s :
  contains tag s = true -> all_chars p s = true -> all_chars p tag = true.
Proof.
  induction s as [|c s IH]; cbn [contains]; intros H Hs.
  - rewrite orb_false_r in H. unfold starts_with in H.
    destruct (strip_prefix tag "") as [r|] eqn:E; [|discriminate].
    apply strip_prefix_app in E. rewrite E, all_chars_app in Hs.
    now apply andb_true_iff in Hs as [Ht _].
  - apply orb_true_iff in H as [H | H].
    + unfold starts_with in H.
      destruct (strip_prefix tag (String c s)) as [r|] eqn:E; [|discriminate].
      apply strip_prefix_app in E. rewrite E, all_chars_app in Hs.
      now apply andb_true_iff in Hs as [Ht _].
    + cbn [all_chars] in Hs. apply andb_true_iff in Hs as [_ Hs]. now apply IH.
Qed.

Lemma fine_lower_char c : fine c = true -> fine (lower_char c) = true.
Proof. ascii_cases c; vm_compute; congruence. Qed.

Lemma fine_lower s : all_chars fine s = true -> all_chars fine (lower s) = true.
Proof.
  induction s as [|c s IH]; cbn [lower all_chars]; [easy|].
  intros H. apply andb_true_iff in H as [Hc Hs].
  now rewrite (fine_lower_char _ Hc), IH.
Qed.

(** The tags of the dictionary of a category. *)
Definition listed (category tag : string) : Prop :=
  exists tag_type tags,
    In (tag_type, tags) (lookup_category category tag_dictionaries) /\ In tag tags.

Lemma extract_tags_elem text category tag :
  tag ∈ extract_tags text category <->
  tag = category
  \/ (listed category tag /\ search_word tag (lower text) = true).
Proof.
  unfold extract_tags, listed.
  rewrite elem_of_union, elem_of_singleton, elem_of_list_to_set, list_elem_of_In,
    in_flat_map.
  split.
  - intros [([ty tags] & Hin & Hf) | ->]; [|now left].
    cbn [snd] in Hf. apply filter_In in Hf as [Ht Hs].
    right. split; [now exists ty, tags | exact Hs].
  - intros [-> | ((ty & tags & Hin & Ht) & Hs)]; [now right|].
    left. exists (ty, tags). split; [exact Hin|].
    cbn [snd]. apply filter_In. now split.
Qed.

(** X27. The tags extracted always include the category; every other tag
    belongs to the dictionary of that category and occurs in the
    lowercased text; for a category without a dictionary the category is
    the only tag. *)
Theorem extract_tags_sound (text category : string) :
  category ∈ extract_tags text category /\
  (forall tag, tag ∈ extract_tags text category -> tag <> category ->
     listed category tag /\ contains tag (lower text) = true) /\
  (category <> "skincare" -> category <> "food" -> category <> "household" ->
   extract_tags text category = {[ category ]}).
Proof.
  split; [apply extract_tags_elem; now left|]. split.
  - intros tag H Hne. apply extract_tags_elem in H as [-> | [Hl Hs]]; [congruence|].
    split; [exact Hl|]. now apply (search_word_contains _ _ None).
  - intros H1 H2 H3. unfold extract_tags.
    assert (E : lookup_category category tag_dictionaries = []).
    { cbn [lookup_category tag_dictionaries].
      destruct (String.eqb_spec "skincare" category); [congruence|].
      destruct (String.eqb_spec "food" category); [congruence|].
      destruct (String.eqb_spec "household" category); [congruence|].
      reflexivity. }
    rewrite E. cbn [flat_map list_to_set]. apply (left_id_L ∅ (∪)).
Qed.

(** X28. A tag spelt with a hyphen is never extracted from a cleaned
    text: cleaning replaces the hyphen by a blank before the tags are
    searched. *)
Theorem hyphenated_tags_lost (text : string) :
  ("acne-prone" ∉ extract_tags (clean_text text) "skincare") /\
  ("gluten-free" ∉ extract_tags (clean_text text) "food") /\
  ("non-gmo" ∉ extract_tags (clean_text text) "food") /\
  ("eco-friendly" ∉ extract_tags (clean_text text) "household").
Proof.
  assert (K : forall tag category,
             tag <> category -> all_chars fine tag = false ->
             tag ∉ extract_tags (clean_text text) category).
  { intros tag category Hne Hbad H.
    apply extract_tags_elem in H as [-> | [_ Hs]]; [congruence|].
    apply (search_word_contains _ _ None) in Hs.
    destruct (clean_form_parts _ (clean_text_clean_form text)) as (Hf & _).
    apply fine_lower in Hf.
    rewrite (contains_all_chars fine _ _ Hs Hf) in Hbad. discriminate. }
  repeat split; apply K; try discriminate; vm_compute; reflexivity.
Qed.

End TagsFacts.

(** ** Properties of pipeline.py *)

Module PipelineFacts.
Import PyStr Data Storage Pipeline.

(** X29. The category the pipeline extracts tags for is "skincare",
    "food" or "unknown", never "household".  When it is "skincare" the
    storage files the product under "skincare" too; when it is "food" the
    storage agrees unless the id also contains "serum", which the storage
    files under "skincare". *)
Theorem tag_category_and_storage (matched : option string) :
  match matched with
  | Some product_id =>
      (tag_category matched = "skincare" /\ _get_category product_id = "skincare")
      \/ (tag_category matched = "food" /\
          _get_category product_id
          = if contains "serum" product_id then "skincare" else "food")
      \/ tag_category matched = "unknown"
  | None => tag_category matched = "unknown"
  end.
Proof.
  destruct matched as [p|]; [|reflexivity].
  unfold tag_category, _get_category.
  destruct (truthy p); [|now right; right].
  destruct (contains "cleanser" p) eqn:E1; cbn [orb]; [now left|].
  destruct (contains "moisturizer" p) eqn:E2; cbn [orb]; [now left|].
  destruct (contains "food" p) eqn:E3; cbn [orb];
    [right; left; split; [reflexivity | destruct (contains "serum" p); reflexivity]|].
  destruct (contains "snack" p) eqn:E4; cbn [orb];
    [right; left; split; [reflexivity | destruct (contains "serum" p); reflexivity]|].
  now right; right.
Qed.

Section Batch.
Context {Post Comment State Atom : Type}.
Variable comments_of : Post -> list Comment.
Variable text_of : Comment -> string.
Variable process : State -> Post -> Comment -> State * Atom.

(** The comments with a non-blank text. *)
Definition kept (comments : list Comment) : nat :=
  List.length (List.filter (fun c => negb (is_empty (strip (text_of c)))) comments).

Definition kept_in (posts : list Post) : nat :=
  list_sum (List.map (fun post => kept (comments_of post)) posts).

(** The number of atoms after [n] more kept comments, [k] atoms being
    there already. *)
Definition expected (max_items : option Z) (k n : nat) : nat :=
  match max_items with
  | Some m =>
      if (m =? 0)%Z then (k + n)%nat
      else if (m <=? Z.of_nat k)%Z then k
      else Z.to_nat (Z.min m (Z.of_nat (k + n)))
  | None => (k + n)%nat
  end.

Lemma comment_loop_length max_items post comments : forall st atoms,
  List.length (snd (comment_loop text_of process max_items post comments (st, atoms)))
  = expected max_items (List.length atoms) (kept comments).
Proof.
  induction comments as [|c comments IH]; intros st atoms.
  - cbn [comment_loop snd kept List.filter List.length]. unfold expected.
    destruct max_items as [m|]; [|lia].
    destruct (m =? 0)%Z; [lia|]. destruct (Z.leb_spec m (Z.of_nat (List.length atoms))); lia.
  - cbn [comment_loop]. unfold kept in *. cbn [List.filter].
    destruct (limit_reached max_items (List.length atoms)) eqn:L.
    + cbn [snd]. unfold expected, limit_reached in *.
      destruct max_items as [m|]; [|discriminate].
      apply andb_true_iff in L as [L0 L1]. apply negb_true_iff in L0.
      now rewrite L0, L1.
    + destruct (is_empty (strip (text_of c))) eqn:B; cbn [negb].
      * apply IH.
      * destruct (process st post c) as [st' atom].
        cbn [List.length].
        destruct (limit_reached max_items (List.length (atoms ++ [atom]))) eqn:L'.
        -- cbn [snd]. unfold expected, limit_reached in *.
           rewrite length_app in *. cbn [List.length] in *.
           destruct max_items as [m|]; [|discriminate].
           apply andb_true_iff in L' as [L0 L1]. apply negb_true_iff in L0.
           rewrite L0 in *. cbn [negb andb] in L.
           apply Z.leb_le in L1. apply Z.leb_gt in L.
           destruct (Z.leb_spec m (Z.of_nat (List.length atoms))); lia.
        -- rewrite IH. unfold expected, limit_reached in *.
           rewrite length_app in *. cbn [List.length] in *.
           destruct max_items as [m|]; [|lia].
           destruct (m =? 0)%Z; [lia|]. cbn [negb andb] in *.
           apply Z.leb_gt in L, L'.
           destruct (Z.leb_spec m (Z.of_nat (List.length atoms + 1))); [lia|].
           destruct (Z.leb_spec m (Z.of_nat (List.length atoms))); lia.
Qed.

Lemma expected_expected max_items k n1 n2 :
  expected max_items (expected max_items k n1) n2 = expected max_items k (n1 + n2).
Proof.
  unfold expected. destruct max_items as [m|]; [|lia].
  destruct (m =? 0)%Z; [lia|].
  destruct (Z.leb_spec m (Z.of_nat k)).
  - destruct (Z.leb_spec m (Z.of_nat k)); lia.
  - destruct (Z.leb_spec m (Z.of_nat (Z.to_nat (Z.min m (Z.of_nat (k + n1)))))); lia.
Qed.

Lemma post_loop_length max_items posts : forall acc,
  List.length (snd (post_loop comments_of text_of process max_items posts acc))
  = expected max_items (List.length (snd acc)) (kept_in posts).
Proof.
  induction posts as [|post posts IH]; intros [st atoms].
  - unfold kept_in. cbn [post_loop snd List.map list_sum fold_right]. unfold expected.
    destruct max_items as [m|]; [|lia].
    destruct (m =? 0)%Z; [lia|]. destruct (Z.leb_spec m (Z.of_nat (List.length atoms))); lia.
  - cbn [post_loop]. rewrite IH, comment_loop_length.
    unfold kept_in. cbn [snd List.map list_sum fold_right]. apply expected_expected.
Qed.


End Batch.

End PipelineFacts.

(** ** The normal form of cleaned text *)

Module CleanTextForm.
Import PyStr PyStrFacts Data Preprocessor PreprocessorFacts ContentAnalyzer
       ContentAnalyzerMore EnvelopeFacts.

(** X30. The output of [clean_text] is in normal form for every input:
    it holds only word characters, apostrophes and blanks, every
    whitespace character in it is a single blank between two other
    characters, and so it contains no URL scheme separator and no
    sentence punctuation. *)
Theorem clean_text_normal_form (text : string) :
  let cleaned := clean_text text in
  all_chars (fun c => is_word c || Ascii.eqb c "'" || Ascii.eqb c " ") cleaned = true /\
  squeezed cleaned = true /\
  head_space cleaned = false /\
  last_space cleaned = false /\
  contains "://" cleaned = false /\
  all_chars (fun c => negb (is_stop c)) cleaned = true.
Proof.
  cbv zeta.
  destruct (clean_form_parts _ (clean_text_clean_form text)) as (Hf & Hs & Hh & Hl).
  repeat split; try assumption.
  - destruct (contains "://" (clean_text text)) eqn:E; [|reflexivity].
    pose proof (TagsFacts.contains_all_chars fine _ _ E Hf) as H.
    vm_compute in H. discriminate.
  - apply (all_chars_impl fine); [|exact Hf].
    intros c Hc. now rewrite (fine_not_stop _ Hc).
Qed.

End CleanTextForm.
